(** * vscode-supercollider: the evaluate-selection feature

    A shallow embedding of the evaluation feature of the extension
    (region location, response dispatch and the decoration feedback driven
    by the generation counter [evaluateUID]), with the properties of its
    specification stated and proved against the embedding.

    Conventions.
    - A JavaScript string is the list of its UTF-16 code units ([N]).
    - A JavaScript number that holds a line number, a column or the
      generation counter is an integer of [Z]; the counter starts at 0 and
      only moves by [++], which is exact on such values far beyond any
      number of evaluations a session performs.
    - A function that can throw returns an [outcome]; a loop is a
      [Fixpoint] on an explicit budget of iterations and [OutOfFuel] marks
      a budget that was too small (the theorems show it is never reached).
    - The editor's decoration API is an effect: every [setDecorations] call
      is appended to a log, and what an editor shows is read off the log.
    - JavaScript objects that are mutated in place live in a heap of
      objects addressed by references; what the built-in prototypes add to
      a property read is a parameter of the functions that read. *)

From Stdlib Require Import ZArith NArith List Bool Lia String Ascii.
From Stdlib Require Import Sorted.
Import ListNotations.

Set Implicit Arguments.

(* ===================================================================== *)
(** ** JavaScript strings *)
(* ===================================================================== *)

Module Js.

Definition char16 := N.
Definition jsstring := list char16.

(** An ASCII literal of the source as a sequence of code units. *)
Definition lit (s : string) : jsstring :=
  List.map N_of_ascii (list_ascii_of_string s).

Definition length (s : jsstring) : Z := Z.of_nat (List.length s).

End Js.

(* ===================================================================== *)
(** ** Regular expressions, as far as the two patterns need them *)
(* ===================================================================== *)

Module RegExp.

Import Js.

Inductive regex : Type :=
| Never                                 (* matches nothing *)
| Empty                                 (* matches the empty string *)
| Class (p : char16 -> bool)            (* one code unit of a class *)
| Seq (a b : regex)
| Alt (a b : regex)
| Star (a : regex).

(** [x?] *)
Definition Opt (a : regex) : regex := Alt a Empty.
(** a literal character *)
Definition Chr (c : char16) : regex := Class (N.eqb c).

(** ECMAScript LineTerminator: LF, CR, LS, PS. *)
Definition isLineTerminator (c : char16) : bool :=
  (c =? 10)%N || (c =? 13)%N || (c =? 8232)%N || (c =? 8233)%N.

(** ECMAScript [\s]: WhiteSpace (TAB, VT, FF, SP, NBSP, ZWNBSP and the
    Unicode category Zs) together with LineTerminator. *)
Definition isSpace (c : char16) : bool :=
  (c =? 9)%N || (c =? 11)%N || (c =? 12)%N || (c =? 32)%N || (c =? 160)%N
  || (c =? 5760)%N || ((8192 <=? c)%N && (c <=? 8202)%N)
  || (c =? 8239)%N || (c =? 8287)%N || (c =? 12288)%N || (c =? 65279)%N
  || isLineTerminator c.

(** [.] without the [s] flag: anything but a line terminator. *)
Definition isDot (c : char16) : bool := negb (isLineTerminator c).

Definition ws : regex := Class isSpace.
Definition dot : regex := Class isDot.

Fixpoint nullable (r : regex) : bool :=
  match r with
  | Never => false
  | Empty => true
  | Class _ => false
  | Seq a b => nullable a && nullable b
  | Alt a b => nullable a || nullable b
  | Star _ => true
  end.

(** The residual of [r] after reading the code unit [c]. *)
Fixpoint deriv (c : char16) (r : regex) : regex :=
  match r with
  | Never => Never
  | Empty => Never
  | Class p => if p c then Empty else Never
  | Seq a b =>
      if nullable a then Alt (Seq (deriv c a) b) (deriv c b)
      else Seq (deriv c a) b
  | Alt a b => Alt (deriv c a) (deriv c b)
  | Star a => Seq (deriv c a) (Star a)
  end.

(** Does [r] match the whole of [s]? *)
Fixpoint accepts (r : regex) (s : jsstring) : bool :=
  match s with
  | [] => nullable r
  | c :: t => accepts (deriv c r) t
  end.

(** The language of a pattern, declaratively. *)
Inductive denotes : regex -> jsstring -> Prop :=
| den_empty : denotes Empty []
| den_class p c : p c = true -> denotes (Class p) [c]
| den_seq a b s t : denotes a s -> denotes b t -> denotes (Seq a b) (s ++ t)
| den_alt_l a b s : denotes a s -> denotes (Alt a b) s
| den_alt_r a b s : denotes b s -> denotes (Alt a b) s
| den_star_stop a : denotes (Star a) []
| den_star_more a s t :
    denotes a s -> denotes (Star a) t -> denotes (Star a) (s ++ t).

(** [RegExp.prototype.test] for a pattern written [/^...$/] with no flag:
    the only possible match starts at index 0 and ends at the end of the
    input, so the test succeeds exactly on the strings of the language of
    the body. *)
Definition test (body : regex) (s : jsstring) : bool := accepts body s.

End RegExp.

(* ===================================================================== *)
(** ** The parts of the editor API the feature uses *)
(* ===================================================================== *)

Module Vscode.

Import Js.

Inductive JsError : Type :=
| TypeError            (* a property read on [undefined] *)
| IllegalLine          (* [lineAt] outside of the document *)
| IllegalArgument.     (* [new Position] with a negative component *)

Inductive outcome (A : Type) : Type :=
| Return (a : A)
| Throw (e : JsError)
| OutOfFuel.

Arguments Return {A} a.
Arguments Throw {A} e.
Arguments OutOfFuel {A}.

Definition bind {A B : Type} (m : outcome A) (k : A -> outcome B) : outcome B :=
  match m with
  | Return a => k a
  | Throw e => Throw e
  | OutOfFuel => OutOfFuel
  end.

Declare Scope js_scope.
Delimit Scope js_scope with js.
Notation "x <- m ;; k" :=
  (bind m (fun x => k))
  (at level 61, m at next level, right associativity) : js_scope.

Record Position : Type := mkPosition { line : Z; character : Z }.

Definition newPosition (l c : Z) : outcome Position :=
  if (l <? 0)%Z then Throw IllegalArgument
  else if (c <? 0)%Z then Throw IllegalArgument
  else Return (mkPosition l c).

Definition isBefore (a b : Position) : bool :=
  (line a <? line b)%Z
  || ((line a =? line b)%Z && (character a <? character b)%Z).

Definition isEqual (a b : Position) : bool :=
  (line a =? line b)%Z && (character a =? character b)%Z.

Record Range : Type := mkRange { start : Position; end_ : Position }.

(** [new Range(a, b)] orders its two positions. *)
Definition newRange (a b : Position) : Range :=
  if isBefore a b then mkRange a b else mkRange b a.

(** [new Selection(anchor, active)]: as a range, the same ordering. *)
Definition newSelection (anchor active : Position) : Range :=
  newRange anchor active.

Definition isEmpty (r : Range) : bool := isEqual (start r) (end_ r).

Record TextLine : Type := mkTextLine {
  lineNumber : Z;
  text : jsstring;
}.

(** [line.range]: the line without its terminator. *)
Definition lineRange (l : TextLine) : Range :=
  mkRange (mkPosition (lineNumber l) 0)
          (mkPosition (lineNumber l) (Js.length (text l))).

(** A document is the list of its lines (a document has at least one). *)
Record TextDocument : Type := mkTextDocument {
  fileName : jsstring;
  lines : list jsstring;
}.

Definition lineCount (d : TextDocument) : Z := Z.of_nat (List.length (lines d)).

Definition lineAt (d : TextDocument) (n : Z) : outcome TextLine :=
  if ((n <? 0) || (lineCount d <=? n))%Z then Throw IllegalLine
  else match nth_error (lines d) (Z.to_nat n) with
       | Some t => Return (mkTextLine n t)
       | None => Throw IllegalLine
       end.

(** The identity of a [TextEditor] object. *)
Definition EditorId := nat.

Record TextEditor : Type := mkTextEditor {
  editorId : EditorId;
  document : TextDocument;
  selection : Range;
}.

(** What the editor guarantees of [window.activeTextEditor]: the selection
    is ordered and lies on lines of the document. *)
Definition validEditor (e : TextEditor) : Prop :=
  (0 <= line (start (selection e)))%Z
  /\ (line (start (selection e)) <= line (end_ (selection e)))%Z
  /\ (line (end_ (selection e)) < lineCount (document e))%Z.

(** [x.p] where [x] may be [undefined]. *)
Definition prop {A B : Type} (x : option A) (p : A -> B) : outcome B :=
  match x with
  | Some a => Return (p a)
  | None => Throw TypeError
  end.

End Vscode.

(* ===================================================================== *)
(** ** The evaluate-selection feature: region location *)
(* ===================================================================== *)

Module Evaluate.

Import Js RegExp Vscode.
Local Open Scope js_scope.
Local Open Scope Z_scope.

(** The opening pattern, token by token:
    ^  \(  \s*  ( \/\/ )?  \s*  ( .* )  \s*  $
    (40 is the left parenthesis, 47 the slash). *)
Definition startRE : regex :=
  Seq (Chr 40%N)
   (Seq (Star ws)
    (Seq (Opt (Seq (Chr 47%N) (Chr 47%N)))
     (Seq (Star ws)
      (Seq (Star dot) (Star ws))))).

(** The closing pattern, token by token:
    ^  \)  \s*  \;?  \s*  ( \/\/ .* )?  $
    (41 is the right parenthesis, 59 the semicolon). *)
Definition endRE : regex :=
  Seq (Chr 41%N)
   (Seq (Star ws)
    (Seq (Opt (Chr 59%N))
     (Seq (Star ws)
      (Opt (Seq (Chr 47%N) (Seq (Chr 47%N) (Star dot))))))).

Definition currentDocumentSelection (activeTextEditor : option TextEditor)
  : outcome (option Range) :=
  match activeTextEditor with
  | None => Return None
  | Some ed => Return (Some (selection ed))
  end.

Definition currentDocumentLine (activeTextEditor : option TextEditor)
  : outcome (option Range) :=
  match activeTextEditor with
  | None => Return None
  | Some ed =>
      startLine <- lineAt (document ed) (line (start (selection ed))) ;;
      endLine <- lineAt (document ed) (line (end_ (selection ed))) ;;
      Return (Some (newRange (start (lineRange startLine))
                             (end_ (lineRange endLine))))
  end.

(** The first loop of [currentDocumentRegion]: walk up from [startLine]
    until a line passes [startRE]; [None] is the [null] assigned at line 0. *)
Fixpoint searchStart (fuel : nat) (document : TextDocument)
    (startLine : TextLine) : outcome (option TextLine) :=
  match fuel with
  | O => OutOfFuel
  | S fuel' =>
      if negb (test startRE (text startLine)) then
        if lineNumber startLine =? 0 then Return None
        else
          startLine' <- lineAt document (lineNumber startLine - 1) ;;
          searchStart fuel' document startLine'
      else Return (Some startLine)
  end.

(** One pass over the two tests of the second loop: the opening test and
    its increment, then the closing test and its decrement. *)
Definition nest (lineText : jsstring) (nestDepth : Z) : Z :=
  let nestDepth :=
    if test startRE lineText then nestDepth + 1 else nestDepth in
  let nestDepth :=
    if test endRE lineText then nestDepth - 1 else nestDepth in
  nestDepth.

(** The second loop: walk down from [endLine]; [None] is the [null]
    assigned on the last line of the document. *)
Fixpoint searchEnd (fuel : nat) (document : TextDocument)
    (endLine : TextLine) (nestDepth : Z) : outcome (option TextLine) :=
  match fuel with
  | O => OutOfFuel
  | S fuel' =>
      let nestDepth := nest (text endLine) nestDepth in
      if nestDepth =? 0 then Return (Some endLine)
      else if lineNumber endLine =? lineCount document - 1 then Return None
      else
        endLine' <- lineAt document (lineNumber endLine + 1) ;;
        searchEnd fuel' document endLine' nestDepth
  end.

(** Iterations granted to each loop: one more than the document has
    lines. *)
Definition budget (document : TextDocument) : nat :=
  S (List.length (lines document)).

Definition currentDocumentRegion (activeTextEditor : option TextEditor)
  : outcome (option Range) :=
  (* [activeTextEditor.document] is read before the test for [undefined] *)
  document <- prop activeTextEditor document ;;
  match activeTextEditor with
  | None => Return None
  | Some ed =>
      let selection := selection ed in
      startLine <- lineAt document (line (start selection)) ;;
      endLine <- lineAt document (line (end_ selection)) ;;
      let nestDepth := 1 in
      startLine <- searchStart (budget document) document startLine ;;
      endLine <-
        match startLine with
        | Some _ => searchEnd (budget document) document endLine nestDepth
        | None => Return (Some endLine)
        end ;;
      match startLine, endLine with
      | Some startLine, Some endLine =>
          Return (Some (newRange (start (lineRange startLine))
                                 (end_ (lineRange endLine))))
      | _, _ => Return None
      end
  end.

End Evaluate.

(* ===================================================================== *)
(** ** The evaluate-selection feature: feedback and dispatch *)
(* ===================================================================== *)

Module Feedback.

Import Js Vscode.
Local Open Scope Z_scope.

(** The three decoration types created when the module is loaded. *)
Inductive Decorator : Type :=
| evaluateDecorator
| successDecorator
| errorDecorator.

Inductive HoverMessage : Type :=
| PlainText (s : string)
| MarkdownString (s : jsstring).

Record DecorationOptions : Type := mkDecoration {
  range : Range;
  hoverMessage : HoverMessage;
}.

(** One call [textEditor.setDecorations(decorator, decorations)]. *)
Record Call : Type := mkCall {
  textEditor : EditorId;
  decorator : Decorator;
  decorations : list DecorationOptions;
}.

(** The two delay promises an invocation creates, named after the
    generation of the invocation. *)
Inductive Promise : Type :=
| evaluateFlashDelay (uid : Z)
| postEvaluateFlashDelay (uid : Z).

(** What [setTimeout] was given. *)
Inductive TimerCallback : Type :=
| clearIfCurrent (target : EditorId) (currentEvaluateUID : Z)
    (* the arrow function that clears the evaluating decoration *)
| resolve (p : Promise).
    (* [res] of a delay promise *)

Record Timer : Type := mkTimer {
  callback : TimerCallback;
  delay : Z;
}.

(** The closure [onStartEvaluate] returns, as the variables it captures. *)
Record FinishFunc : Type := mkFinishFunc {
  finishEditor : EditorId;
  finishRange : Range;
  currentEvaluateUID : Z;
  finishFlashDelay : Promise;
  finishPostFlashDelay : Promise;
}.

(** An activation of [onEndEvaluate] suspended at one of its [await]s. *)
Inductive Frame : Type :=
| atFlashDelay (target : EditorId) (r : Range) (responseText : jsstring)
    (isError : bool) (flashDelay postDelay : Promise)
| atPostFlashDelay (target : EditorId) (isError : bool) (postDelay : Promise).

(** The request of the protocol extension and its result. *)
Record EvaluateSelectionParams : Type := mkParams {
  textDocument : jsstring;       (* the identifier made of [document.fileName] *)
  sourceRange : Range;           (* [sourceCode] is the text of this range *)
}.

Record EvaluateSelectionResult : Type := mkResult {
  compileError : option jsstring;
  result : option jsstring;
  error : option jsstring;
}.

(** A request that was sent, with the handler given to [then]. *)
Record Pending : Type := mkPending {
  request : EvaluateSelectionParams;
  finish : FinishFunc;
}.

(** The state of the extension host as far as the feature goes. *)
Record World : Type := mkWorld {
  evaluateUID : Z;                      (* [let evaluateUID = 0] *)
  configuration : string -> option Z;   (* the settings store *)
  log : list Call;                      (* [setDecorations] calls, newest first *)
  timers : list Timer;                  (* armed [setTimeout]s *)
  resolved : list Promise;              (* delay promises that are resolved *)
  pending : list Pending;               (* requests awaiting their response *)
  frames : list Frame;                  (* suspended [onEndEvaluate]s *)
}.

Definition initial (cfg : string -> option Z) : World :=
  mkWorld 0 cfg [] [] [] [] [].

Definition decoratorTimeout : Z := 5000.

(** [configuration.get(key, defaultValue)] *)
Definition get (w : World) (key : string) (defaultValue : Z) : Z :=
  match configuration w key with
  | Some v => v
  | None => defaultValue
  end.

Definition setDecorations (ed : EditorId) (d : Decorator)
    (l : list DecorationOptions) (w : World) : World :=
  mkWorld (evaluateUID w) (configuration w) (mkCall ed d l :: log w)
          (timers w) (resolved w) (pending w) (frames w).

Definition setTimeout (cb : TimerCallback) (ms : Z) (w : World) : World :=
  mkWorld (evaluateUID w) (configuration w) (log w)
          (mkTimer cb ms :: timers w) (resolved w) (pending w) (frames w).

Definition suspend (k : Frame) (w : World) : World :=
  mkWorld (evaluateUID w) (configuration w) (log w)
          (timers w) (resolved w) (pending w) (k :: frames w).

Definition sendRequest (p : Pending) (w : World) : World :=
  mkWorld (evaluateUID w) (configuration w) (log w)
          (timers w) (resolved w) (p :: pending w) (frames w).

Definition settle (p : Promise) (w : World) : World :=
  mkWorld (evaluateUID w) (configuration w) (log w)
          (timers w) (p :: resolved w) (pending w) (frames w).

(** [++evaluateUID] *)
Definition preIncrement (w : World) : World :=
  mkWorld (evaluateUID w + 1) (configuration w) (log w)
          (timers w) (resolved w) (pending w) (frames w).

(** What editor [ed] shows for decoration type [d]: the list of the latest
    call for the two, nothing before the first call. *)
Definition decoratorEqb (a b : Decorator) : bool :=
  match a, b with
  | evaluateDecorator, evaluateDecorator
  | successDecorator, successDecorator
  | errorDecorator, errorDecorator => true
  | _, _ => false
  end.

Fixpoint shownIn (l : list Call) (ed : EditorId) (d : Decorator)
  : list DecorationOptions :=
  match l with
  | [] => []
  | c :: older =>
      if Nat.eqb (textEditor c) ed && decoratorEqb (decorator c) d
      then decorations c
      else shownIn older ed d
  end.

Definition shown (w : World) (ed : EditorId) (d : Decorator)
  : list DecorationOptions :=
  shownIn (log w) ed d.

(** [onEndEvaluate], from its call to the first [await]. *)
Definition onEndEvaluate (ed : EditorId) (r : Range) (responseText : jsstring)
    (isError : bool) (flashDelay postDelay : Promise) (w : World) : World :=
  suspend (atFlashDelay ed r responseText isError flashDelay postDelay) w.

(** [onEndEvaluate], from [await flashDelay] to the second [await]. *)
Definition afterFlashDelay (ed : EditorId) (r : Range)
    (responseText : jsstring) (isError : bool) (postDelay : Promise)
    (w : World) : World :=
  let w := setDecorations ed evaluateDecorator [] w in
  if isError then
    let w := setDecorations ed successDecorator [] w in
    let w := setDecorations ed errorDecorator
               [mkDecoration r (MarkdownString responseText)] w in
    suspend (atPostFlashDelay ed isError postDelay) w
  else
    let w := setDecorations ed errorDecorator [] w in
    let w := setDecorations ed successDecorator
               [mkDecoration r (MarkdownString responseText)] w in
    suspend (atPostFlashDelay ed isError postDelay) w.

(** [onEndEvaluate], after [await postEvaluateFlashDelay]. *)
Definition afterPostFlashDelay (ed : EditorId) (isError : bool) (w : World)
  : World :=
  if isError then setDecorations ed errorDecorator [] w
  else setDecorations ed successDecorator [] w.

(** The body of the timeout callback armed by [onStartEvaluate]. *)
Definition timeoutCallback (ed : EditorId) (uid : Z) (w : World) : World :=
  if evaluateUID w =? uid then setDecorations ed evaluateDecorator [] w
  else w.

(** The body of the closure [onStartEvaluate] returns. *)
Definition finishFunc (f : FinishFunc) (text : jsstring) (isError : bool)
    (w : World) : World :=
  if evaluateUID w =? currentEvaluateUID f then
    onEndEvaluate (finishEditor f) (finishRange f) text isError
                  (finishFlashDelay f) (finishPostFlashDelay f) w
  else w.

Definition onStartEvaluate (ed : EditorId) (r : Range) (w : World)
  : FinishFunc * World :=
  let w := preIncrement w in
  let currentEvaluateUID := evaluateUID w in
  let w := setDecorations ed successDecorator [] w in
  let w := setDecorations ed errorDecorator [] w in
  let w := setDecorations ed evaluateDecorator
             [mkDecoration r (PlainText "Evaluated the thing")] w in
  let w := setTimeout (clearIfCurrent ed currentEvaluateUID)
                      decoratorTimeout w in
  let decoratorFlashTime := get w "supercollider.evaluate.flashTime" 50 in
  let w := setTimeout (resolve (evaluateFlashDelay currentEvaluateUID))
                      decoratorFlashTime w in
  let postEvaluateFlashTime :=
    get w "supercollider.evaluate.postFlashTime" 600 in
  let w := setTimeout (resolve (postEvaluateFlashDelay currentEvaluateUID))
                      postEvaluateFlashTime w in
  (mkFinishFunc ed r currentEvaluateUID
                (evaluateFlashDelay currentEvaluateUID)
                (postEvaluateFlashDelay currentEvaluateUID), w).

(** The handler given to [then] in [evaluateString], over any completion
    callback. *)
Definition responseHandler {S : Type}
    (finishFunc : jsstring -> bool -> S -> S)
    (res : EvaluateSelectionResult) : S -> S :=
  match result res with
  | Some text => finishFunc text false
  | None =>
      match compileError res with
      | Some text => finishFunc text true
      | None =>
          match error res with
          | Some text => finishFunc text true
          | None => fun s => s
          end
      end
  end.

(** [evaluateString], up to its return: an [async] function, so nothing it
    does is thrown to its caller. *)
Definition evaluateString (activeTextEditor : option EditorId)
    (document : TextDocument) (r : Range) (w : World) : World :=
  match activeTextEditor with
  | None => w
  | Some ed =>
      let '(finishFunc, w) := onStartEvaluate ed r w in
      sendRequest (mkPending (mkParams (fileName document) r) finishFunc) w
  end.

End Feedback.

(* ===================================================================== *)
(** ** The commands *)
(* ===================================================================== *)

Module Commands.

Import Js Vscode Evaluate Feedback.
Local Open Scope js_scope.
Local Open Scope Z_scope.

(** The optional argument of [supercollider.evaluateSelection]. *)
Record InputRange : Type := mkInputRange {
  startLine : Z;
  startCharacter : Z;
  endLine : Z;
  endCharacter : Z;
}.

Definition provide (activeTextEditor : option TextEditor)
    (document : TextDocument) (r : option Range) (w : World) : World :=
  match r with
  | Some r =>
      evaluateString (option_map editorId activeTextEditor) document r w
  | None => w
  end.

Definition evaluateSelection (activeTextEditor : option TextEditor)
    (inputRange : option InputRange) (w : World) : outcome World :=
  document <- prop activeTextEditor document ;;
  r <- match inputRange with
       | Some i =>
           a <- newPosition (startLine i) (startCharacter i) ;;
           b <- newPosition (endLine i) (endCharacter i) ;;
           Return (Some (newSelection a b))
       | None => currentDocumentSelection activeTextEditor
       end ;;
  r <- (if match r with None => true | Some r => isEmpty r end
        then currentDocumentLine activeTextEditor
        else Return r) ;;
  Return (provide activeTextEditor document r w).

Definition evaluateLine (activeTextEditor : option TextEditor) (w : World)
  : outcome World :=
  document <- prop activeTextEditor document ;;
  r <- currentDocumentLine activeTextEditor ;;
  Return (provide activeTextEditor document r w).

Definition evaluateRegion (activeTextEditor : option TextEditor) (w : World)
  : outcome World :=
  document <- prop activeTextEditor document ;;
  r <- currentDocumentRegion activeTextEditor ;;
  Return (provide activeTextEditor document r w).

End Commands.

(* ===================================================================== *)
(** ** The event loop: which callbacks may run next *)
(* ===================================================================== *)

Module Host.

Import Js Vscode Feedback.
Local Open Scope Z_scope.

Definition removeAt {A : Type} (i : nat) (l : list A) : list A :=
  firstn i l ++ skipn (S i) l.

Definition dropTimer (i : nat) (w : World) : World :=
  mkWorld (evaluateUID w) (configuration w) (log w)
          (removeAt i (timers w)) (resolved w) (pending w) (frames w).

Definition dropPending (i : nat) (w : World) : World :=
  mkWorld (evaluateUID w) (configuration w) (log w)
          (timers w) (resolved w) (removeAt i (pending w)) (frames w).

Definition dropFrame (i : nat) (w : World) : World :=
  mkWorld (evaluateUID w) (configuration w) (log w)
          (timers w) (resolved w) (pending w) (removeAt i (frames w)).

Definition promiseEqb (p q : Promise) : bool :=
  match p, q with
  | evaluateFlashDelay a, evaluateFlashDelay b => a =? b
  | postEvaluateFlashDelay a, postEvaluateFlashDelay b => a =? b
  | _, _ => false
  end.

Definition isResolved (p : Promise) (w : World) : bool :=
  existsb (promiseEqb p) (resolved w).

Definition runTimer (cb : TimerCallback) (w : World) : World :=
  match cb with
  | clearIfCurrent ed uid => timeoutCallback ed uid w
  | resolve p => settle p w
  end.

(** A suspended [onEndEvaluate] goes on once the promise it awaits is
    resolved. *)
Definition resumeFrame (k : Frame) (w : World) : option World :=
  match k with
  | atFlashDelay ed r text isError flashDelay postDelay =>
      if isResolved flashDelay w
      then Some (afterFlashDelay ed r text isError postDelay w)
      else None
  | atPostFlashDelay ed isError postDelay =>
      if isResolved postDelay w
      then Some (afterPostFlashDelay ed isError w)
      else None
  end.

Inductive Event : Type :=
| Evaluate (activeTextEditor : option EditorId) (document : TextDocument)
    (r : Range)
    (* a command calls [provider.evaluateString] *)
| Response (i : nat) (res : EvaluateSelectionResult)
    (* the request at index [i] of [pending] gets its response *)
| TimerFires (i : nat)
    (* the timer at index [i] of [timers] expires *)
| Resumes (i : nat).
    (* the activation at index [i] of [frames] is resumed *)

(** One turn of the event loop; [None] when the event cannot happen.
    When a timer expires is the host's business: any armed timer may be
    the one that expires next here, so the runs of the host, in which
    timers expire in the order of their deadlines, are among the runs of
    [step], and what holds of every run holds of them. *)
Definition step (e : Event) (w : World) : option World :=
  match e with
  | Evaluate active document r => Some (evaluateString active document r w)
  | Response i res =>
      match nth_error (pending w) i with
      | Some p =>
          Some (responseHandler (finishFunc (finish p)) res (dropPending i w))
      | None => None
      end
  | TimerFires i =>
      match nth_error (timers w) i with
      | Some t => Some (runTimer (callback t) (dropTimer i w))
      | None => None
      end
  | Resumes i =>
      match nth_error (frames w) i with
      | Some k => resumeFrame k (dropFrame i w)
      | None => None
      end
  end.

Fixpoint run (es : list Event) (w : World) : option World :=
  match es with
  | [] => Some w
  | e :: es' =>
      match step e w with
      | Some w' => run es' w'
      | None => None
      end
  end.

(** The generation an event issues: the one captured by the closure that
    [onStartEvaluate] returns, when the event starts an invocation. *)
Definition issuedBy (e : Event) (w : World) : list Z :=
  match e with
  | Evaluate (Some ed) _ r =>
      [currentEvaluateUID (fst (onStartEvaluate ed r w))]
  | _ => []
  end.

(** The generations issued along a run, oldest first. *)
Fixpoint issued (es : list Event) (w : World) : list Z :=
  match es with
  | [] => []
  | e :: es' =>
      match step e w with
      | Some w' => issuedBy e w ++ issued es' w'
      | None => []
      end
  end.

End Host.

(* ===================================================================== *)
(** ** Vocabulary of the properties *)
(* ===================================================================== *)

Module Spec.

Import Js RegExp Vscode Evaluate Feedback Host.
Local Open Scope Z_scope.

(** [l] is a line object of document [d]. *)
Definition isLineOf (d : TextDocument) (l : TextLine) : Prop :=
  0 <= lineNumber l < lineCount d
  /\ nth_error (lines d) (Z.to_nat (lineNumber l)) = Some (text l).

(** The texts of the lines [a], [a+1], ..., [b] of [d]. *)
Definition segment (d : TextDocument) (a b : Z) : list jsstring :=
  firstn (Z.to_nat (b - a + 1)) (skipn (Z.to_nat a) (lines d)).

(** The nesting counter after the two tests were run on each text of [ts]
    in turn, starting from [n]. *)
Definition depthAfter (ts : list jsstring) (n : Z) : Z :=
  fold_left (fun depth t => nest t depth) ts n.

Definition count (p : jsstring -> bool) (ts : list jsstring) : Z :=
  Z.of_nat (List.length (filter p ts)).

(** Opening and closing markers among the texts [ts]. *)
Definition opens (ts : list jsstring) : Z := count (test startRE) ts.
Definition closes (ts : list jsstring) : Z := count (test endRE) ts.

(** How many of the three fields of a result are defined. *)
Definition defined (o : option jsstring) : nat :=
  match o with Some _ => 1 | None => 0 end.

Definition populated (res : EvaluateSelectionResult) : nat :=
  (defined (result res) + defined (compileError res) + defined (error res))%nat.

(** A completion callback that only records how it was called. *)
Definition recorder (text : jsstring) (isError : bool)
    (calls : list (jsstring * bool)) : list (jsstring * bool) :=
  calls ++ [(text, isError)].

End Spec.

(* ===================================================================== *)
(** ** Sample inputs *)
(* ===================================================================== *)

Module Examples.

Import Js Vscode Feedback Host.
Local Open Scope Z_scope.

(** An editor on a document with the given lines, the selection being the
    lines [a] to [b]. *)
Definition editorOn (id : EditorId) (ls : list string) (a b : Z) : TextEditor :=
  mkTextEditor id
    (mkTextDocument (lit "example.scd") (List.map lit ls))
    (mkRange (mkPosition a 0) (mkPosition b 0)).

(** The three-line block of the specification's scenario. *)
Definition block : list string := ["("; "1 + 1;"; ")"]%string.

(** A block whose opening line carries the selection. *)
Definition blockX : list string := ["("; "x;"; ")"]%string.

(** Two nested blocks around one statement. *)
Definition nested : list string := ["("; "("; "x"; ")"; ")"]%string.

(** A block with a statement and then an inner block. *)
Definition outer : list string := ["("; "a;"; "("; "x"; ")"; ")"]%string.

(** A document and two ranges for the feedback examples. *)
Definition scd : TextDocument :=
  mkTextDocument (lit "example.scd") (List.map lit block).

Definition rangeA : Range := mkRange (mkPosition 0 0) (mkPosition 2 1).
Definition rangeB : Range := mkRange (mkPosition 1 0) (mkPosition 1 6).

Definition defaults : string -> option Z := fun _ => None.

(** Two invocations in flight on one editor, the older one being at
    index 1 of the pending requests. *)
Definition twoOnOneEditor : list Event :=
  [Evaluate (Some 0%nat) scd rangeA; Evaluate (Some 0%nat) scd rangeB].

(** One invocation on editor 1, then one on editor 2. *)
Definition oneInFlight : list Event := [Evaluate (Some 1%nat) scd rangeA].
Definition twoEditors : list Event :=
  [Evaluate (Some 1%nat) scd rangeA; Evaluate (Some 2%nat) scd rangeB].

(** Results of the remote engine. *)
Definition succeeded (t : string) : EvaluateSelectionResult :=
  mkResult None (Some (lit t)) None.
Definition failed (t : string) : EvaluateSelectionResult :=
  mkResult None None (Some (lit t)).
Definition nothing : EvaluateSelectionResult := mkResult None None None.
Definition resultAndError : EvaluateSelectionResult :=
  mkResult None (Some (lit "2")) (Some (lit "DivideByZero")).


(** The world after the two invocations of [twoOnOneEditor]. *)
Definition afterTwo : World :=
  evaluateString (Some 0%nat) scd rangeB
    (evaluateString (Some 0%nat) scd rangeA (initial defaults)).

(** The closure of an invocation of generation 1 on editor 1. *)
Definition finishOne : FinishFunc :=
  mkFinishFunc 1%nat rangeA 1 (evaluateFlashDelay 1) (postEvaluateFlashDelay 1).

(** The world after the invocation of [oneInFlight]. *)
Definition afterOne : World :=
  evaluateString (Some 1%nat) scd rangeA (initial defaults).

End Examples.

(* ===================================================================== *)
(** ** Objects, and the capability flag of the feature *)
(* ===================================================================== *)

Module JsObject.

Import Vscode.
Local Open Scope js_scope.

(** A reference to an object of the heap (a function is an object). *)
Definition Ref := nat.

Inductive Value : Type :=
| VUndefined
| VNull
| VBoolean (b : bool)
| VNumber (z : Z)
| VString (s : string)
| VObject (r : Ref).

(** The own properties of an object, in the order of their creation. *)
Definition Object := list (string * Value).

(** The heap: the object of reference [r] is at index [r]. *)
Definition Heap := list Object.

(** The own property [key] of [o], if it has one. *)
Fixpoint own (o : Object) (key : string) : option Value :=
  match o with
  | [] => None
  | (k, v) :: rest => if String.eqb k key then Some v else own rest key
  end.

(** [o[key] = v] on own properties: the property keeps its place when it
    exists and is added last when it does not. *)
Fixpoint assign (o : Object) (key : string) (v : Value) : Object :=
  match o with
  | [] => [(key, v)]
  | (k, x) :: rest =>
      if String.eqb k key then (k, v) :: rest
      else (k, x) :: assign rest key v
  end.

Definition objectAt (h : Heap) (r : Ref) : Object := nth r h [].

Fixpoint replaceAt (r : Ref) (o : Object) (h : Heap) : Heap :=
  match h, r with
  | [], _ => []
  | _ :: rest, O => o :: rest
  | x :: rest, S r' => x :: replaceAt r' o rest
  end.

(** [{}] *)
Definition newObject (h : Heap) : Value * Heap :=
  (VObject (List.length h), h ++ [[]]).

(** [v === void 0] *)
Definition isUndefined (v : Value) : bool :=
  match v with
  | VUndefined => true
  | _ => false
  end.

Section Prototypes.

(** What [v[key]] gives when [v] has no own property [key]: the lookup in
    the built-in prototypes of [v], [undefined] for a key they do not
    define. *)
Variable inherited : Value -> string -> Value.

(** [target[key]]: a [TypeError] on [undefined] and [null]. *)
Definition getProp (h : Heap) (target : Value) (key : string) : outcome Value :=
  match target with
  | VUndefined | VNull => Throw TypeError
  | VObject r =>
      match own (objectAt h r) key with
      | Some v => Return v
      | None => Return (inherited target key)
      end
  | _ => Return (inherited target key)
  end.

(** [target[key] = v] in strict code and for a key that has no setter in
    the prototypes: a [TypeError] on anything but an object. *)
Definition setProp (h : Heap) (target : Value) (key : string) (v : Value)
  : outcome Heap :=
  match target with
  | VObject r => Return (replaceAt r (assign (objectAt h r) key v) h)
  | _ => Throw TypeError
  end.

Definition ensure (target : Value) (key : string) (h : Heap)
  : outcome (Value * Heap) :=
  v <- getProp h target key ;;
  h <- (if isUndefined v then
          let '(fresh, h) := newObject h in
          setProp h target key fresh
        else Return h) ;;
  v <- getProp h target key ;;
  Return (v, h).

(** [EvaluateSelectionFeature.fillClientCapabilities] *)
Definition fillClientCapabilities (capabilities : Value) (h : Heap)
  : outcome Heap :=
  p <- ensure capabilities "textDocument" h ;;
  q <- ensure (fst p) "evaluation" (snd p) ;;
  setProp (snd q) (fst q) "evaluateSelection" (VBoolean true).

(** The key names no property of a built-in prototype. *)
Definition plainKey (key : string) : Prop :=
  forall v, inherited v key = VUndefined.

End Prototypes.

(** What the property [key] of the object [r] holds, for a plain key. *)
Definition read (h : Heap) (r : Ref) (key : string) : Value :=
  match own (objectAt h r) key with
  | Some v => v
  | None => VUndefined
  end.

(** Every reference held by an object of the heap is a reference of the
    heap. *)
Definition closed (h : Heap) : Prop :=
  forall r k r', (r < List.length h)%nat -> read h r k = VObject r' ->
                 (r' < List.length h)%nat.

(** An object or nothing. *)
Definition objectOrUndefined (v : Value) : Prop :=
  v = VUndefined \/ exists r, v = VObject r.

(** Values without inherited properties (objects made with a null
    prototype): every key is plain. *)
Definition noPrototype (v : Value) (key : string) : Value := VUndefined.

End JsObject.

(* ===================================================================== *)
(** ** Vocabulary of the further properties *)
(* ===================================================================== *)

Module Spec2.

Import Js RegExp Vscode Feedback Host.
Local Open Scope Z_scope.

(** A pattern that visibly matches nothing. *)
Fixpoint void (r : regex) : bool :=
  match r with
  | Never => true
  | Seq a b => void a || void b
  | Alt a b => void a && void b
  | _ => false
  end.

(** The generations of the requests that await their response, newest
    first. *)
Definition pendingUids (w : World) : list Z :=
  List.map (fun p => currentEvaluateUID (finish p)) (pending w).

(** The decoration type a completion paints. *)
Definition resultDecorator (isError : bool) : Decorator :=
  if isError then errorDecorator else successDecorator.

(** The invariant on the awaited requests. *)
Definition inOrder (w : World) : Prop :=
  StronglySorted Z.gt (pendingUids w)
  /\ Forall (fun u => 1 <= u <= evaluateUID w) (pendingUids w)
  /\ 0 <= evaluateUID w.

(** The delay with which the timer that an event lets expire was armed. *)
Definition expiredBy (e : Event) (w : World) : list Z :=
  match e with
  | TimerFires i =>
      match nth_error (timers w) i with
      | Some t => [delay t]
      | None => []
      end
  | _ => []
  end.

(** The delays of the timers that expire along a run, in the order in
    which they expire.  Timers armed in the same turn expire in the order
    of their delays. *)
Fixpoint expired (es : list Event) (w : World) : list Z :=
  match es with
  | [] => []
  | e :: es' =>
      match step e w with
      | Some w' => expiredBy e w ++ expired es' w'
      | None => []
      end
  end.

End Spec2.

(* ===================================================================== *)
(** ** Properties of the patterns *)
(* ===================================================================== *)

Module RegExpFacts.

Import Js RegExp.

Lemma nullable_denotes r : nullable r = true <-> denotes r [].
Proof.
  split.
  - induction r; simpl; intros H; try discriminate.
    + constructor.
    + apply andb_true_iff in H as [Ha Hb].
      change (@nil char16) with (@nil char16 ++ []). constructor; auto.
    + apply orb_true_iff in H as [H | H].
      * apply den_alt_l; auto.
      * apply den_alt_r; auto.
    + apply den_star_stop.
  - intros H. remember (@nil char16) as s eqn:Es.
    induction H; simpl; auto; try discriminate.
    + apply app_eq_nil in Es as [-> ->]. rewrite IHdenotes1, IHdenotes2; auto.
    + rewrite IHdenotes; auto.
    + rewrite IHdenotes; auto. apply orb_true_r.
Qed.

Lemma deriv_sound c r : forall s, denotes (deriv c r) s -> denotes r (c :: s).
Proof.
  induction r; simpl; intros s H.
  - inversion H.
  - inversion H.
  - destruct (p c) eqn:Ep; inversion H; subst. constructor; exact Ep.
  - destruct (nullable r1) eqn:En.
    + inversion H; subst.
      * match goal with K : denotes (Seq _ _) _ |- _ => inversion K; subst end.
        change (c :: s0 ++ t) with ((c :: s0) ++ t). constructor; auto.
      * change (c :: s) with ([] ++ c :: s). constructor; auto.
        apply nullable_denotes; exact En.
    + inversion H; subst.
      change (c :: s0 ++ t) with ((c :: s0) ++ t). constructor; auto.
  - inversion H; subst.
    + apply den_alt_l; auto.
    + apply den_alt_r; auto.
  - inversion H; subst.
    change (c :: s0 ++ t) with ((c :: s0) ++ t). apply den_star_more; auto.
Qed.

Lemma deriv_complete c r s : denotes r (c :: s) -> denotes (deriv c r) s.
Proof.
  intros H. remember (c :: s) as cs eqn:E. revert s E.
  induction H; intros u E; simpl; try discriminate.
  - injection E as -> <-. rewrite H. constructor.
  - destruct s as [| x s'].
    + simpl in E. subst t.
      assert (Hn : nullable a = true) by (apply nullable_denotes; exact H).
      rewrite Hn. apply den_alt_r. apply IHdenotes2; reflexivity.
    + simpl in E. injection E as -> <-.
      destruct (nullable a).
      * apply den_alt_l. constructor; auto.
      * constructor; auto.
  - apply den_alt_l; auto.
  - apply den_alt_r; auto.
  - destruct s as [| x s'].
    + simpl in E. apply IHdenotes2; exact E.
    + simpl in E. injection E as -> <-. constructor; auto.
Qed.

(** The matcher decides the language of the pattern. *)
Theorem accepts_denotes s : forall r, accepts r s = true <-> denotes r s.
Proof.
  induction s as [| c s IH]; intros r; simpl.
  - apply nullable_denotes.
  - rewrite IH. split; [apply deriv_sound | apply deriv_complete].
Qed.

Lemma star_class p t :
  forallb p t = true -> denotes (Star (Class p)) t.
Proof.
  induction t as [| c t IH]; simpl; intros H.
  - apply den_star_stop.
  - apply andb_true_iff in H as [Hc Ht].
    change (c :: t) with ([c] ++ t). apply den_star_more; auto.
    constructor; exact Hc.
Qed.

Lemma test_head c body s :
  test (Seq (Chr c) body) s = true -> exists t, s = c :: t.
Proof.
  unfold test. intros H. apply accepts_denotes in H.
  inversion H; subst.
  match goal with K : denotes (Chr _) _ |- _ => inversion K; subst end.
  match goal with K : N.eqb _ _ = true |- _ => apply N.eqb_eq in K; subst end.
  eexists; reflexivity.
Qed.

End RegExpFacts.

(* ===================================================================== *)
(** ** Properties of the region locator *)
(* ===================================================================== *)

Module RegionFacts.

Import Js RegExp Vscode Evaluate Spec RegExpFacts.
Local Open Scope Z_scope.

Ltac conjs := repeat match goal with |- _ /\ _ => split end.

Lemma startRE_head s : test startRE s = true -> exists t, s = 40%N :: t.
Proof. apply test_head. Qed.

Lemma endRE_head s : test endRE s = true -> exists t, s = 41%N :: t.
Proof. apply test_head. Qed.

(** No text passes both tests: one pattern wants a left parenthesis in
    front, the other a right one. *)
Lemma markers_exclusive s : test startRE s = true -> test endRE s = false.
Proof.
  intros Hs. destruct (test endRE s) eqn:He; auto.
  apply startRE_head in Hs as [t ->]. apply endRE_head in He as [u E].
  discriminate.
Qed.

(** On a text without line terminator (what the editor hands out as the
    text of a line, up to the two Unicode separators) the opening test
    only asks for the left parenthesis in front: the rest is taken by
    the [.*] of the pattern. *)
Lemma startRE_on_line t :
  forallb isDot t = true -> test startRE (40%N :: t) = true.
Proof.
  intros H. unfold test. apply accepts_denotes. unfold startRE.
  rewrite <- (app_nil_r t).
  change (40%N :: t ++ []) with ([40%N] ++ [] ++ [] ++ [] ++ t ++ []).
  constructor; [constructor; reflexivity |].
  constructor; [apply den_star_stop |].
  constructor; [apply den_alt_r; constructor |].
  constructor; [apply den_star_stop |].
  constructor; [apply star_class; exact H | apply den_star_stop].
Qed.

(** The two tests on some line texts. *)
Example tests_on_samples :
  List.map (test startRE)
    (List.map lit ["("; "( // synth"; "(1 + 1)"; " ("; "x"; ")"]%string)
  = [true; true; true; false; false; false]
  /\ List.map (test endRE)
       (List.map lit [")"; ");"; ") ; // done"; ")  "; ") x"; "))"; ");;"; " )"; "("]%string)
     = [true; true; true; true; false; false; false; false; false].
Proof. split; reflexivity. Qed.

Lemma nest_cases t n :
  (test startRE t = true /\ test endRE t = false /\ nest t n = n + 1)
  \/ (test startRE t = false /\ test endRE t = true /\ nest t n = n - 1)
  \/ (test startRE t = false /\ test endRE t = false /\ nest t n = n).
Proof.
  unfold nest. destruct (test startRE t) eqn:Hs.
  - rewrite (markers_exclusive _ Hs). auto.
  - destruct (test endRE t); auto.
Qed.

Lemma skipn_nth {A : Type} (xs : list A) : forall n x,
  nth_error xs n = Some x -> skipn n xs = x :: skipn (S n) xs.
Proof.
  induction xs as [| y ys IH]; intros [| n] x H; simpl in *; try discriminate.
  - congruence.
  - apply IH; exact H.
Qed.

Lemma lineAt_inside d n :
  0 <= n < lineCount d ->
  exists l, lineAt d n = Return l /\ lineNumber l = n /\ isLineOf d l.
Proof.
  intros Hn. unfold lineAt.
  replace ((n <? 0) || (lineCount d <=? n))%bool with false
    by (symmetry; apply orb_false_iff; split; [apply Z.ltb_ge | apply Z.leb_gt]; lia).
  destruct (nth_error (lines d) (Z.to_nat n)) as [t |] eqn:E.
  - exists (mkTextLine n t). unfold isLineOf. conjs; simpl; auto; lia.
  - apply nth_error_None in E. unfold lineCount in Hn. lia.
Qed.

Lemma isLineOf_unique d l k :
  isLineOf d l -> isLineOf d k -> lineNumber l = lineNumber k -> l = k.
Proof.
  intros [_ Hl] [_ Hk] E. destruct l as [a s], k as [b t]; simpl in *.
  subst b. rewrite Hl in Hk. congruence.
Qed.

Lemma segment_empty d a b : b < a -> segment d a b = [].
Proof.
  intros H. unfold segment. replace (Z.to_nat (b - a + 1)) with O by lia.
  reflexivity.
Qed.

Lemma segment_cons d l b :
  isLineOf d l -> lineNumber l <= b ->
  segment d (lineNumber l) b = text l :: segment d (lineNumber l + 1) b.
Proof.
  intros [Hr Hl] Hb. unfold segment.
  rewrite (skipn_nth _ _ Hl).
  replace (Z.to_nat (b - lineNumber l + 1))
    with (S (Z.to_nat (b - (lineNumber l + 1) + 1))) by lia.
  replace (Z.to_nat (lineNumber l + 1)) with (S (Z.to_nat (lineNumber l))) by lia.
  reflexivity.
Qed.

Lemma count_cons p t ts :
  count p (t :: ts) = (if p t then 1 else 0) + count p ts.
Proof.
  unfold count. cbn [filter]. destruct (p t); cbn [List.length]; lia.
Qed.

(** The counter is the initial value, plus the opening markers, minus the
    closing markers of the lines that were read. *)
Lemma depthAfter_count ts : forall n,
  depthAfter ts n = n + opens ts - closes ts.
Proof.
  induction ts as [| t ts IH]; intros n.
  - unfold depthAfter, opens, closes, count. simpl. lia.
  - change (depthAfter (t :: ts) n) with (depthAfter ts (nest t n)).
    rewrite IH. unfold opens, closes. rewrite !count_cons.
    destruct (nest_cases t n) as [(-> & -> & ->) | [(-> & -> & ->) | (-> & -> & ->)]]; lia.
Qed.

(** The upward loop returns, and what it returns. *)
Lemma searchStart_spec fuel : forall d l,
  isLineOf d l -> (Z.to_nat (lineNumber l) < fuel)%nat ->
  (exists l', searchStart fuel d l = Return (Some l')
     /\ isLineOf d l' /\ lineNumber l' <= lineNumber l
     /\ test startRE (text l') = true
     /\ forall k, isLineOf d k -> lineNumber l' < lineNumber k <= lineNumber l ->
                  test startRE (text k) = false)
  \/ (searchStart fuel d l = Return None
      /\ forall k, isLineOf d k -> lineNumber k <= lineNumber l ->
                   test startRE (text k) = false).
Proof.
  induction fuel as [| fuel IH]; intros d l Hl Hf; [lia |].
  simpl. destruct (test startRE (text l)) eqn:Ht; simpl.
  - left. exists l. conjs; auto; try lia.
  - destruct (lineNumber l =? 0) eqn:Ez.
    + apply Z.eqb_eq in Ez. right. split; auto. intros k Hk Hle.
      assert (k = l) by (apply (isLineOf_unique Hk Hl); destruct Hk; lia).
      subst k. exact Ht.
    + apply Z.eqb_neq in Ez. pose proof Hl as [Hr _].
      destruct (@lineAt_inside d (lineNumber l - 1)) as (l1 & E1 & N1 & L1); [lia |].
      rewrite E1. cbn [bind].
      assert (Above : forall k, isLineOf d k ->
                 lineNumber l1 < lineNumber k <= lineNumber l ->
                 test startRE (text k) = false).
      { intros k Hk Hle.
        assert (k = l) by (apply (isLineOf_unique Hk Hl); lia).
        subst k. exact Ht. }
      destruct (IH d l1 L1) as [(l' & E & L' & Le & T & Between) | (E & All)]; [lia | |].
      * left. exists l'. conjs; auto; try lia. intros k Hk Hle.
        destruct (Z_le_gt_dec (lineNumber k) (lineNumber l1)).
        -- apply Between; auto. lia.
        -- apply Above; auto. lia.
      * right. split; auto. intros k Hk Hle.
        destruct (Z_le_gt_dec (lineNumber k) (lineNumber l1)).
        -- apply All; auto.
        -- apply Above; auto. lia.
Qed.

(** The downward loop returns, and what it returns. *)
Lemma searchEnd_spec fuel : forall d l n,
  isLineOf d l -> 1 <= n ->
  (Z.to_nat (lineCount d - lineNumber l) <= fuel)%nat ->
  (exists l', searchEnd fuel d l n = Return (Some l')
     /\ isLineOf d l' /\ lineNumber l <= lineNumber l'
     /\ test endRE (text l') = true
     /\ depthAfter (segment d (lineNumber l) (lineNumber l')) n = 0
     /\ forall j, lineNumber l <= j < lineNumber l' ->
                  1 <= depthAfter (segment d (lineNumber l) j) n)
  \/ (searchEnd fuel d l n = Return None
      /\ forall j, lineNumber l <= j < lineCount d ->
                   1 <= depthAfter (segment d (lineNumber l) j) n).
Proof.
  induction fuel as [| fuel IH]; intros d l n Hl Hn Hf.
  { destruct Hl as [Hr _]. lia. }
  simpl. pose proof Hl as [Hr _].
  assert (Unfold : forall j, lineNumber l <= j ->
            depthAfter (segment d (lineNumber l) j) n
            = depthAfter (segment d (lineNumber l + 1) j) (nest (text l) n)).
  { intros j Hj. rewrite segment_cons by auto. reflexivity. }
  destruct (nest (text l) n =? 0) eqn:Ez.
  - apply Z.eqb_eq in Ez. left. exists l. conjs; auto; try lia.
    + destruct (nest_cases (text l) n) as [(_ & _ & E) | [(_ & T & _) | (_ & _ & E)]]; auto; lia.
    + rewrite Unfold by lia. rewrite segment_empty by lia. exact Ez.
  - apply Z.eqb_neq in Ez.
    assert (Hn' : 1 <= nest (text l) n).
    { destruct (nest_cases (text l) n) as [(_ & _ & E) | [(_ & _ & E) | (_ & _ & E)]]; lia. }
    destruct (lineNumber l =? lineCount d - 1) eqn:El.
    + apply Z.eqb_eq in El. right. split; auto. intros j Hj.
      rewrite Unfold by lia. rewrite segment_empty by lia. exact Hn'.
    + apply Z.eqb_neq in El.
      destruct (@lineAt_inside d (lineNumber l + 1)) as (l1 & E1 & N1 & L1); [lia |].
      rewrite E1. cbn [bind].
      assert (Here : forall j, lineNumber l <= j < lineNumber l1 ->
                1 <= depthAfter (segment d (lineNumber l) j) n).
      { intros j Hj. rewrite Unfold by lia. rewrite segment_empty by lia. exact Hn'. }
      destruct (IH d l1 (nest (text l) n) L1 Hn') as
        [(l' & E & L' & Le & T & Zero & First) | (E & All)]; [lia | |].
      * left. exists l'. conjs; auto; try lia.
        -- rewrite Unfold by lia. rewrite <- N1. exact Zero.
        -- intros j Hj. destruct (Z_lt_ge_dec j (lineNumber l1)).
           ++ apply Here. lia.
           ++ rewrite Unfold by lia. rewrite <- N1. apply First. lia.
      * right. split; auto. intros j Hj.
        destruct (Z_lt_ge_dec j (lineNumber l1)).
        -- apply Here. lia.
        -- rewrite Unfold by lia. rewrite <- N1. apply All. lia.
Qed.

(** What region mode returns for an editor in focus. *)
Lemma region_spec ed :
  validEditor ed ->
  let d := document ed in
  let s := line (start (selection ed)) in
  let e := line (end_ (selection ed)) in
  (exists ls le,
      currentDocumentRegion (Some ed)
      = Return (Some (mkRange (mkPosition (lineNumber ls) 0)
                              (mkPosition (lineNumber le) (Js.length (text le)))))
      /\ isLineOf d ls /\ isLineOf d le
      /\ lineNumber ls <= s /\ e <= lineNumber le
      /\ test startRE (text ls) = true /\ test endRE (text le) = true
      /\ (forall k, isLineOf d k -> lineNumber ls < lineNumber k <= s ->
                    test startRE (text k) = false)
      /\ depthAfter (segment d e (lineNumber le)) 1 = 0
      /\ (forall j, e <= j < lineNumber le -> 1 <= depthAfter (segment d e j) 1))
  \/ (currentDocumentRegion (Some ed) = Return None
      /\ ((forall k, isLineOf d k -> lineNumber k <= s ->
                     test startRE (text k) = false)
          \/ ((exists k, isLineOf d k /\ lineNumber k <= s
                         /\ test startRE (text k) = true)
              /\ forall j, e <= j < lineCount d ->
                           1 <= depthAfter (segment d e j) 1))).
Proof.
  intros (H0 & Hse & He). cbv zeta.
  destruct (@lineAt_inside (document ed) (line (start (selection ed))))
    as (ls0 & Es & Ns & Ls); [lia |].
  destruct (@lineAt_inside (document ed) (line (end_ (selection ed))))
    as (le0 & Ee & Ne & Le); [lia |].
  unfold currentDocumentRegion. cbn [prop bind].
  rewrite Es. cbn [bind]. rewrite Ee. cbn [bind].
  set (d := document ed) in *.
  assert (Fs : (Z.to_nat (lineNumber ls0) < budget d)%nat).
  { unfold budget. destruct Ls as [Hr _]. unfold lineCount in Hr. lia. }
  assert (Fe : (Z.to_nat (lineCount d - lineNumber le0) <= budget d)%nat).
  { unfold budget. destruct Le as [Hr _]. unfold lineCount in *. lia. }
  destruct (searchStart_spec Ls Fs) as [(ls & E1 & L1 & Le1 & T1 & B1) | (E1 & A1)].
  - rewrite E1. cbn [bind].
    destruct (@searchEnd_spec (budget d) d le0 1 Le ltac:(lia) Fe)
      as [(le & E2 & L2 & Le2 & T2 & Z2 & F2) | (E2 & A2)].
    + rewrite E2. cbn [bind]. left. exists ls, le.
      assert (Hlt : lineNumber ls < lineNumber le).
      { destruct (Z.eq_dec (lineNumber ls) (lineNumber le)) as [Q |]; [| lia].
        rewrite (isLineOf_unique L1 L2 Q) in T1.
        rewrite (markers_exclusive _ T1) in T2. discriminate. }
      split.
      { unfold newRange, isBefore, lineRange. simpl.
        replace (lineNumber ls <? lineNumber le) with true
          by (symmetry; apply Z.ltb_lt; exact Hlt).
        reflexivity. }
      rewrite Ns in *. rewrite Ne in *. conjs; auto.
    + rewrite E2. cbn [bind]. right. split; auto. right. split.
      * exists ls. rewrite Ns in *. auto.
      * rewrite Ne in *. exact A2.
  - rewrite E1. cbn [bind]. right. split; auto. left. rewrite Ns in *. exact A1.
Qed.

(** A span returned by region mode, unfolded. *)
Lemma region_returns ed r :
  validEditor ed ->
  currentDocumentRegion (Some ed) = Return (Some r) ->
  let d := document ed in
  let e := line (end_ (selection ed)) in
  exists ls le,
    r = mkRange (start (lineRange ls)) (end_ (lineRange le))
    /\ isLineOf d ls /\ isLineOf d le
    /\ lineNumber ls <= line (start (selection ed)) /\ e <= lineNumber le
    /\ test startRE (text ls) = true /\ test endRE (text le) = true
    /\ depthAfter (segment d e (lineNumber le)) 1 = 0
    /\ (forall j, e <= j < lineNumber le -> 1 <= depthAfter (segment d e j) 1).
Proof.
  intros Hv Hr. cbv zeta.
  destruct (region_spec Hv) as
    [(ls & le & E & L1 & L2 & B1 & B2 & T1 & T2 & _ & Z2 & F2) | (E & _)];
    rewrite E in Hr; [| discriminate].
  injection Hr as <-. exists ls, le. conjs; auto.
Qed.

(** C5: for an editor in focus, region mode returns either a span from the
    start of a line that passes the opening pattern to the end of a line
    that passes the closing pattern (the first at or above the selection,
    the second at or below it), or no span; it returns no span when no
    line at or above the selection start passes the opening pattern, when
    no line at or below the selection end passes the closing pattern, and
    when the nesting counter reaches 0 on no line from the selection end
    on; on the lines "(", "1 + 1;", ")" with the selection on the
    middle line it returns the span from (0,0) to (2,1). *)
Theorem C5_region_span_or_none ed :
  validEditor ed ->
  ((exists ls le,
       currentDocumentRegion (Some ed)
       = Return (Some (mkRange (start (lineRange ls)) (end_ (lineRange le))))
       /\ isLineOf (document ed) ls /\ isLineOf (document ed) le
       /\ lineNumber ls <= line (start (selection ed))
       /\ line (end_ (selection ed)) <= lineNumber le
       /\ test startRE (text ls) = true
       /\ test endRE (text le) = true)
   \/ currentDocumentRegion (Some ed) = Return None)
  /\ ((forall k, isLineOf (document ed) k ->
                 lineNumber k <= line (start (selection ed)) ->
                 test startRE (text k) = false) ->
      currentDocumentRegion (Some ed) = Return None)
  /\ ((forall k, isLineOf (document ed) k ->
                 line (end_ (selection ed)) <= lineNumber k ->
                 test endRE (text k) = false) ->
      currentDocumentRegion (Some ed) = Return None)
  /\ ((forall j, line (end_ (selection ed)) <= j < lineCount (document ed) ->
                 depthAfter (segment (document ed) (line (end_ (selection ed))) j) 1
                 <> 0) ->
      currentDocumentRegion (Some ed) = Return None)
  /\ (forall id a b,
        currentDocumentRegion
          (Some (mkTextEditor id
                   (mkTextDocument (lit "example.scd") (List.map lit Examples.block))
                   (mkRange (mkPosition 1 a) (mkPosition 1 b))))
        = Return (Some (mkRange (mkPosition 0 0) (mkPosition 2 1)))).
Proof.
  intros Hv.
  destruct (region_spec Hv) as
    [(ls & le & E & L1 & L2 & B1 & B2 & T1 & T2 & _ & Z2 & F2) | (E & _)].
  - split; [| split; [| split; [| split]]].
    + left. exists ls, le. conjs; auto.
    + intros No. rewrite (No ls L1 B1) in T1. discriminate.
    + intros No. rewrite (No le L2 B2) in T2. discriminate.
    + intros No. destruct L2 as [R2 _]. exfalso.
      apply (No (lineNumber le)); [lia | exact Z2].
    + intros id a b. reflexivity.
  - split; [| split; [| split; [| split]]]; auto.
Qed.

Lemma C5_region_span_or_none_witness :
  validEditor (Examples.editorOn 0%nat Examples.block 1 1)
  /\ currentDocumentRegion (Some (Examples.editorOn 0%nat Examples.block 1 1))
     <> Return None.
Proof.
  assert (Hv : validEditor (Examples.editorOn 0%nat Examples.block 1 1))
    by (unfold validEditor, lineCount; simpl; lia).
  split; [exact Hv |].
  destruct (C5_region_span_or_none Hv) as
    ([(ls & le & E & _) | E] & _ & _ & _ & Ex).
  - rewrite E. discriminate.
  - intros _. specialize (Ex 0%nat 0 0).
    change (currentDocumentRegion (Some (Examples.editorOn 0%nat Examples.block 1 1))
            = Return (Some (mkRange (mkPosition 0 0) (mkPosition 2 1)))) in Ex.
    rewrite Ex in E. discriminate.
Defined.

(** C4, as the code has it: once an opening line was found, the downward
    scan starts on the selection's end line with the counter at 1 and
    reads the lines in order, running on each the opening test (and its
    increment) and then the closing test (and its decrement); the two
    tests are separate statements, but no line passes both; the scan
    stops on the first line after which the counter is 0, and it has
    then read exactly one closing marker more than opening markers (N
    closing markers for the opening marker of the region and the N-1 it
    read on its way); when the counter is 0 after no line, every line to
    the end of the document is read and no span is returned. *)
Theorem C4_forward_scan ed :
  validEditor ed ->
  (exists k, isLineOf (document ed) k
             /\ lineNumber k <= line (start (selection ed))
             /\ test startRE (text k) = true) ->
  let d := document ed in
  let e := line (end_ (selection ed)) in
  ((exists r,
       currentDocumentRegion (Some ed) = Return (Some r)
       /\ e <= line (end_ r) < lineCount d
       /\ depthAfter (segment d e (line (end_ r))) 1 = 0
       /\ (forall j, e <= j < line (end_ r) ->
                     1 <= depthAfter (segment d e j) 1)
       /\ closes (segment d e (line (end_ r)))
          = 1 + opens (segment d e (line (end_ r))))
   \/ (currentDocumentRegion (Some ed) = Return None
       /\ forall j, e <= j < lineCount d ->
                    1 <= depthAfter (segment d e j) 1))
  /\ (forall t n,
        nest t n
        = (let n1 := if test startRE t then n + 1 else n in
           if test endRE t then n1 - 1 else n1))
  /\ (forall t, test startRE t && test endRE t = false).
Proof.
  intros Hv (k & Lk & Bk & Tk). cbv zeta. split; [| split].
  - destruct (region_spec Hv) as
      [(ls & le & E & L1 & L2 & B1 & B2 & T1 & T2 & _ & Z2 & F2)
      | (E & [No | (_ & All)])].
    + left. eexists. split; [exact E |]. cbn [line end_ start].
      destruct L2 as [R2 _]. conjs; auto; try lia.
      rewrite depthAfter_count in Z2. lia.
    + rewrite (No k Lk Bk) in Tk. discriminate.
    + right. split; auto.
  - intros t n. reflexivity.
  - intros t. destruct (test startRE t) eqn:Hs; simpl; auto.
    apply markers_exclusive; exact Hs.
Qed.

Lemma C4_forward_scan_witness :
  validEditor (Examples.editorOn 0%nat Examples.outer 1 1)
  /\ currentDocumentRegion (Some (Examples.editorOn 0%nat Examples.outer 1 1))
     = Return (Some (mkRange (mkPosition 0 0) (mkPosition 5 1)))
  /\ closes (segment (document (Examples.editorOn 0%nat Examples.outer 1 1)) 1 5)
     = 1 + opens (segment (document (Examples.editorOn 0%nat Examples.outer 1 1)) 1 5).
Proof.
  assert (Hv : validEditor (Examples.editorOn 0%nat Examples.outer 1 1))
    by (unfold validEditor, lineCount; simpl; lia).
  assert (Hk : exists k,
             isLineOf (document (Examples.editorOn 0%nat Examples.outer 1 1)) k
             /\ lineNumber k <= line (start (selection (Examples.editorOn 0%nat Examples.outer 1 1)))
             /\ test startRE (text k) = true).
  { exists (mkTextLine 0 (lit "(")). unfold isLineOf, lineCount. simpl.
    conjs; try lia; reflexivity. }
  split; [exact Hv |].
  destruct (C4_forward_scan Hv Hk) as ([(r & E & _ & _ & _ & N) | (E & _)] & _).
  - assert (Er : currentDocumentRegion (Some (Examples.editorOn 0%nat Examples.outer 1 1))
                 = Return (Some (mkRange (mkPosition 0 0) (mkPosition 5 1))))
      by reflexivity.
    split; [exact Er |].
    rewrite Er in E. injection E as <-. exact N.
  - discriminate E.
Defined.

(** The claim as written does not hold of the code: no text passes both
    tests, and with two nested opening markers before the first closing
    marker and the selection on the innermost statement the scan stops
    after one closing marker. *)
Lemma C4_counterexample :
  ~ (exists t, test startRE t = true /\ test endRE t = true)
  /\ currentDocumentRegion (Some (Examples.editorOn 0%nat Examples.nested 2 2))
     = Return (Some (mkRange (mkPosition 1 0) (mkPosition 3 1)))
  /\ opens (firstn 3 (List.map lit Examples.nested)) = 2
  /\ closes (firstn 3 (List.map lit Examples.nested)) = 0
  /\ closes (segment (document (Examples.editorOn 0%nat Examples.nested 2 2)) 2 3) = 1.
Proof.
  split.
  - intros (t & Hs & He). rewrite (markers_exclusive _ Hs) in He. discriminate.
  - repeat split; reflexivity.
Qed.

(** C9: the tests of the downward scan are run on the selection's end
    line itself.  When that line passes the opening pattern the counter is
    2 after it, before any later line is read, so a span is returned only
    if the lines below it hold two closing markers more than opening
    markers up to the line where the scan stops; on the lines "(",
    "x;", ")" with the selection on line 0 no span is returned. *)
Theorem C9_selection_on_opening_line ed l :
  validEditor ed ->
  isLineOf (document ed) l ->
  lineNumber l = line (end_ (selection ed)) ->
  test startRE (text l) = true ->
  let d := document ed in
  let e := line (end_ (selection ed)) in
  nest (text l) 1 = 2
  /\ (forall r, currentDocumentRegion (Some ed) = Return (Some r) ->
        e < line (end_ r)
        /\ closes (segment d (e + 1) (line (end_ r)))
           = 2 + opens (segment d (e + 1) (line (end_ r))))
  /\ (forall id a b,
        currentDocumentRegion
          (Some (mkTextEditor id
                   (mkTextDocument (lit "example.scd") (List.map lit Examples.blockX))
                   (mkRange (mkPosition 0 a) (mkPosition 0 b))))
        = Return None).
Proof.
  intros Hv Ll Nl Tl. cbv zeta.
  assert (N2 : nest (text l) 1 = 2).
  { destruct (nest_cases (text l) 1) as [(_ & _ & E) | [(F & _) | (F & _)]];
      [exact E | congruence | congruence]. }
  split; [exact N2 | split].
  - intros r Hr.
    destruct (region_returns Hv Hr) as
      (ls & le & -> & L1 & L2 & B1 & B2 & T1 & T2 & Z2 & F2).
    cbn [line end_ start lineRange]. rewrite <- Nl in *.
    assert (Hlt : lineNumber l < lineNumber le).
    { destruct (Z.eq_dec (lineNumber l) (lineNumber le)) as [Q |]; [| lia].
      rewrite (isLineOf_unique Ll L2 Q) in Tl.
      rewrite (markers_exclusive _ Tl) in T2. discriminate. }
    split; [exact Hlt |].
    rewrite segment_cons in Z2 by (auto; lia).
    change (depthAfter (segment (document ed) (lineNumber l + 1) (lineNumber le))
                       (nest (text l) 1) = 0) in Z2.
    rewrite N2, depthAfter_count in Z2. lia.
  - intros id a b. reflexivity.
Qed.

Lemma C9_selection_on_opening_line_witness :
  validEditor (Examples.editorOn 0%nat Examples.nested 1 1)
  /\ nest (lit "(") 1 = 2
  /\ currentDocumentRegion (Some (Examples.editorOn 0%nat Examples.nested 1 1))
     = Return (Some (mkRange (mkPosition 1 0) (mkPosition 4 1))).
Proof.
  assert (Hv : validEditor (Examples.editorOn 0%nat Examples.nested 1 1))
    by (unfold validEditor, lineCount; simpl; lia).
  assert (Ll : isLineOf (document (Examples.editorOn 0%nat Examples.nested 1 1))
                        (mkTextLine 1 (lit "(")))
    by (unfold isLineOf, lineCount; simpl; conjs; try lia; reflexivity).
  split; [exact Hv |].
  destruct (@C9_selection_on_opening_line
              (Examples.editorOn 0%nat Examples.nested 1 1)
              (mkTextLine 1 (lit "(")) Hv Ll eq_refl eq_refl) as (N2 & _ & _).
  split; [exact N2 | reflexivity].
Defined.

End RegionFacts.

(* ===================================================================== *)
(** ** Properties of the response dispatch *)
(* ===================================================================== *)

Module DispatchFacts.

Import Js Vscode Feedback Host Spec.
Local Open Scope Z_scope.

(** C7: for a result with exactly one field defined, the handler calls the
    completion callback once, with the text of that field and [false] for
    [result], [true] for [compileError] and for [error]; a compile error
    and a run-time error with the same text are handled by the same call,
    and that call paints the error decoration with the text as its hover
    message, clearing the two other decorations. *)
Theorem C7_dispatch_well_formed (res : EvaluateSelectionResult) :
  populated res = 1%nat ->
  (forall t, result res = Some t ->
     (forall S (f : jsstring -> bool -> S -> S), responseHandler f res = f t false)
     /\ responseHandler recorder res [] = [(t, false)])
  /\ (forall t, compileError res = Some t ->
        (forall S (f : jsstring -> bool -> S -> S), responseHandler f res = f t true)
        /\ responseHandler recorder res [] = [(t, true)])
  /\ (forall t, error res = Some t ->
        (forall S (f : jsstring -> bool -> S -> S), responseHandler f res = f t true)
        /\ responseHandler recorder res [] = [(t, true)])
  /\ (forall t S (f : jsstring -> bool -> S -> S),
        responseHandler f (mkResult (Some t) None None)
        = responseHandler f (mkResult None None (Some t)))
  /\ (forall ed r t post w,
        log (afterFlashDelay ed r t true post w)
        = mkCall ed errorDecorator [mkDecoration r (MarkdownString t)]
          :: mkCall ed successDecorator []
          :: mkCall ed evaluateDecorator [] :: log w)
  /\ (forall ed r t post w,
        log (afterFlashDelay ed r t false post w)
        = mkCall ed successDecorator [mkDecoration r (MarkdownString t)]
          :: mkCall ed errorDecorator []
          :: mkCall ed evaluateDecorator [] :: log w).
Proof.
  intros One.
  assert (Paint : forall ed r t post w isError,
            log (afterFlashDelay ed r t isError post w)
            = (if isError
               then [mkCall ed errorDecorator [mkDecoration r (MarkdownString t)];
                     mkCall ed successDecorator []]
               else [mkCall ed successDecorator [mkDecoration r (MarkdownString t)];
                     mkCall ed errorDecorator []])
              ++ mkCall ed evaluateDecorator [] :: log w).
  { intros ed r t post w [|]; reflexivity. }
  destruct res as [[c |] [r |] [e |]];
    unfold populated in One; simpl in One; try discriminate One;
    unfold responseHandler; simpl;
    (split; [| split; [| split; [| split; [| split]]]]);
    try (intros t H; try discriminate H; injection H as ->; split; reflexivity);
    try reflexivity;
    intros; apply Paint.
Qed.

Lemma C7_dispatch_well_formed_witness :
  populated (Examples.failed "DivideByZero") = 1%nat
  /\ responseHandler recorder (Examples.failed "DivideByZero") []
     = [(lit "DivideByZero", true)].
Proof.
  split; [reflexivity |].
  destruct (@C7_dispatch_well_formed (Examples.failed "DivideByZero") eq_refl)
    as (_ & _ & E & _).
  exact (proj2 (E (lit "DivideByZero") eq_refl)).
Defined.

(** C2, as the code has it: when no field of the result is defined the
    handler does not call the completion callback, and the response only
    retires the request (no decoration call, no activation); when more
    than one field is defined the handler still calls the callback, once,
    for the first defined field in the order [result], [compileError],
    [error]. *)
Theorem C2_dispatch_ill_formed (res : EvaluateSelectionResult) :
  (populated res = 0%nat ->
     (forall S (f : jsstring -> bool -> S -> S) s, responseHandler f res s = s)
     /\ responseHandler recorder res [] = []
     /\ forall i p w, nth_error (pending w) i = Some p ->
          step (Response i res) w = Some (dropPending i w))
  /\ (forall t, result res = Some t ->
        (forall S (f : jsstring -> bool -> S -> S), responseHandler f res = f t false)
        /\ responseHandler recorder res [] = [(t, false)])
  /\ (forall t, result res = None -> compileError res = Some t ->
        (forall S (f : jsstring -> bool -> S -> S), responseHandler f res = f t true)
        /\ responseHandler recorder res [] = [(t, true)])
  /\ (forall t, result res = None -> compileError res = None ->
        error res = Some t ->
        (forall S (f : jsstring -> bool -> S -> S), responseHandler f res = f t true)
        /\ responseHandler recorder res [] = [(t, true)]).
Proof.
  destruct res as [c r e]. unfold populated, responseHandler. simpl.
  split; [| split; [| split]].
  - intros Z. destruct r, c, e; simpl in Z; try discriminate.
    split; [| split]; try reflexivity.
    intros i p w Hp. simpl. rewrite Hp. reflexivity.
  - intros t ->. split; reflexivity.
  - intros t -> ->. split; reflexivity.
  - intros t -> -> ->. split; reflexivity.
Qed.

Lemma C2_dispatch_ill_formed_witness :
  populated Examples.nothing = 0%nat
  /\ responseHandler recorder Examples.nothing [] = [].
Proof.
  split; [reflexivity |].
  destruct (C2_dispatch_ill_formed Examples.nothing) as (Z & _).
  exact (proj1 (proj2 (Z eq_refl))).
Defined.

(** The claim as written does not hold of the code: a result with both
    [result] and [error] defined has two fields populated, and the handler
    calls the completion callback for it; delivered to the only invocation
    in flight, it starts the success transition. *)
Lemma C2_counterexample :
  populated Examples.resultAndError = 2%nat
  /\ responseHandler recorder Examples.resultAndError [] = [(lit "2", false)]
  /\ option_map frames
       (run (Examples.oneInFlight ++ [Response 0 Examples.resultAndError])
            (initial Examples.defaults))
     = Some [atFlashDelay 1%nat Examples.rangeA (lit "2") false
               (evaluateFlashDelay 1) (postEvaluateFlashDelay 1)].
Proof. repeat split. Qed.

End DispatchFacts.

(* ===================================================================== *)
(** ** Properties of the feedback state machine *)
(* ===================================================================== *)

Module FeedbackFacts.

Import Js Vscode Feedback Host Spec.
Local Open Scope Z_scope.

Lemma finishFunc_stale f t e w :
  evaluateUID w <> currentEvaluateUID f -> finishFunc f t e w = w.
Proof.
  intros H. unfold finishFunc.
  destruct (evaluateUID w =? currentEvaluateUID f) eqn:E; auto.
  apply Z.eqb_eq in E. contradiction.
Qed.

Lemma finishFunc_current f t e w :
  evaluateUID w = currentEvaluateUID f ->
  finishFunc f t e w
  = suspend (atFlashDelay (finishEditor f) (finishRange f) t e
               (finishFlashDelay f) (finishPostFlashDelay f)) w.
Proof.
  intros H. unfold finishFunc, onEndEvaluate. rewrite H, Z.eqb_refl. reflexivity.
Qed.

Lemma timeoutCallback_stale ed uid w :
  evaluateUID w <> uid -> timeoutCallback ed uid w = w.
Proof.
  intros H. unfold timeoutCallback.
  destruct (evaluateUID w =? uid) eqn:E; auto.
  apply Z.eqb_eq in E. contradiction.
Qed.

(** A response for a stale generation changes nothing, whatever it holds. *)
Lemma responseHandler_stale f res w :
  evaluateUID w <> currentEvaluateUID f ->
  responseHandler (finishFunc f) res w = w.
Proof.
  intros H. unfold responseHandler.
  destruct (result res); [apply finishFunc_stale; auto |].
  destruct (compileError res); [apply finishFunc_stale; auto |].
  destruct (error res); [apply finishFunc_stale; auto | reflexivity].
Qed.

Lemma finishFunc_uid f t e w :
  evaluateUID (finishFunc f t e w) = evaluateUID w.
Proof.
  unfold finishFunc. destruct (evaluateUID w =? currentEvaluateUID f); reflexivity.
Qed.

Lemma responseHandler_uid f res w :
  evaluateUID (responseHandler (finishFunc f) res w) = evaluateUID w.
Proof.
  unfold responseHandler.
  destruct (result res); [apply finishFunc_uid |].
  destruct (compileError res); [apply finishFunc_uid |].
  destruct (error res); [apply finishFunc_uid | reflexivity].
Qed.

(** One turn of the event loop moves the counter by one when it starts an
    invocation and leaves it alone otherwise. *)
Lemma step_uid e w w' :
  step e w = Some w' ->
  (issuedBy e w = [] /\ evaluateUID w' = evaluateUID w)
  \/ (issuedBy e w = [evaluateUID w + 1] /\ evaluateUID w' = evaluateUID w + 1).
Proof.
  destruct e as [[ed |] doc r | i res | i | i]; simpl; intros H.
  - injection H as <-. right. split; reflexivity.
  - injection H as <-. left. split; reflexivity.
  - destruct (nth_error (pending w) i); [| discriminate].
    injection H as <-. left. split; [reflexivity |].
    rewrite responseHandler_uid. reflexivity.
  - destruct (nth_error (timers w) i) as [t |]; [| discriminate].
    injection H as <-. left. split; [reflexivity |].
    destruct (callback t) as [ed uid | p]; simpl; [| reflexivity].
    unfold timeoutCallback. simpl. destruct (evaluateUID w =? uid); reflexivity.
  - destruct (nth_error (frames w) i) as [k |]; [| discriminate].
    left. split; [reflexivity |].
    destruct k as [ed r t isError fd pd | ed isError pd]; simpl in H.
    + destruct (isResolved fd (dropFrame i w)); [| discriminate].
      injection H as <-. destruct isError; reflexivity.
    + destruct (isResolved pd (dropFrame i w)); [| discriminate].
      injection H as <-. destruct isError; reflexivity.
Qed.

(** The generations issued along a run are consecutive. *)
Lemma issued_consecutive es : forall w w',
  run es w = Some w' ->
  exists n, issued es w = List.map (fun k => evaluateUID w + Z.of_nat k) (seq 1 n)
            /\ evaluateUID w' = evaluateUID w + Z.of_nat n.
Proof.
  induction es as [| e es IH]; intros w w' H; simpl in H.
  - injection H as <-. exists O. simpl. split; [reflexivity | lia].
  - simpl. destruct (step e w) as [w1 |] eqn:Es; [| discriminate].
    destruct (IH _ _ H) as (n & En & Un).
    destruct (step_uid _ _ Es) as [(Ei & Eu) | (Ei & Eu)]; rewrite Ei, En, Eu in *.
    + exists n. split; [reflexivity | exact Un].
    + exists (S n). split; [| lia].
      cbn [seq List.map app]. f_equal.
      rewrite <- (seq_shift n 1), map_map. apply map_ext. intros k. lia.
Qed.


Lemma nth_error_seq_Some len : forall start i x,
  nth_error (seq start len) i = Some x -> x = (start + i)%nat.
Proof.
  induction len as [| len IH]; intros start [| i] x H; simpl in H; try discriminate.
  - injection H as <-. lia.
  - apply IH in H. lia.
Qed.

Lemma NoDup_map_of_nat l : NoDup l -> NoDup (List.map Z.of_nat l).
Proof.
  induction 1 as [| x l Hx Hl IH]; simpl; constructor; auto.
  intros Hin. apply in_map_iff in Hin as (y & Hy & Hin).
  apply Nat2Z.inj in Hy. subst y. contradiction.
Qed.

(** C10: [evaluateUID] is one counter for the whole extension host; a
    turn of the event loop adds one to it when it starts an invocation
    and leaves it unchanged otherwise, so along any run from the initial
    state the generations captured by the invocations are 1, 2, ..., n in
    the order of the invocations (n being the counter at the end): each
    is strictly greater than every earlier one, on whichever editor, and
    no two are equal. *)
Theorem C10_generations_strictly_increase cfg es w :
  run es (initial cfg) = Some w ->
  issued es (initial cfg) = List.map Z.of_nat (seq 1 (Z.to_nat (evaluateUID w)))
  /\ 0 <= evaluateUID w
  /\ (forall i j a b, (i < j)%nat ->
        nth_error (issued es (initial cfg)) i = Some a ->
        nth_error (issued es (initial cfg)) j = Some b -> a < b)
  /\ NoDup (issued es (initial cfg))
  /\ (forall e w0 w1, step e w0 = Some w1 ->
        evaluateUID w1 = evaluateUID w0 + Z.of_nat (List.length (issuedBy e w0)))
  /\ (forall ed r w0,
        currentEvaluateUID (fst (onStartEvaluate ed r w0)) = evaluateUID w0 + 1
        /\ evaluateUID (snd (onStartEvaluate ed r w0)) = evaluateUID w0 + 1).
Proof.
  intros H. destruct (issued_consecutive _ _ H) as (n & En & Un).
  simpl in En, Un.
  assert (Eq : issued es (initial cfg) = List.map Z.of_nat (seq 1 n)).
  { rewrite En. apply map_ext. intros k. reflexivity. }
  replace (Z.to_nat (evaluateUID w)) with n by lia.
  split; [exact Eq | split; [lia | split; [| split; [| split]]]].
  - intros i j a b Hij Ha Hb. rewrite Eq in Ha, Hb.
    rewrite nth_error_map in Ha, Hb.
    destruct (nth_error (seq 1 n) i) as [x |] eqn:Ex; [| discriminate].
    destruct (nth_error (seq 1 n) j) as [y |] eqn:Ey; [| discriminate].
    apply nth_error_seq_Some in Ex, Ey. simpl in Ha, Hb.
    injection Ha as <-. injection Hb as <-. lia.
  - rewrite Eq. apply NoDup_map_of_nat, seq_NoDup.
  - intros e w0 w1 Hs.
    destruct (step_uid _ _ Hs) as [(-> & ->) | (-> & ->)]; simpl; lia.
  - intros ed r w0. split; reflexivity.
Qed.

Lemma C10_generations_strictly_increase_witness :
  run Examples.twoEditors (initial Examples.defaults) <> None
  /\ issued Examples.twoEditors (initial Examples.defaults) = [1; 2].
Proof.
  split; [discriminate |].
  assert (R : run Examples.twoEditors (initial Examples.defaults)
              = Some (evaluateString (Some 2%nat) Examples.scd Examples.rangeB
                        Examples.afterOne)) by reflexivity.
  destruct (C10_generations_strictly_increase _ _ R) as (E & _).
  exact E.
Defined.

(** C8: whatever the settings, every invocation arms with the delay 5000
    the timer whose callback is the clearing of the evaluating decoration
    (the two other timers it arms resolve the flash delays); when that
    callback runs it makes one call, the clearing of the evaluating
    decoration of its editor, if the counter still equals the generation
    of the invocation, and otherwise leaves the world as it is; in both
    cases what any editor shows as success or error decoration is
    unchanged. *)
Theorem C8_timeout_is_fixed_and_silent ed r w :
  decoratorTimeout = 5000
  /\ timers (snd (onStartEvaluate ed r w))
     = mkTimer (resolve (postEvaluateFlashDelay (evaluateUID w + 1)))
               (get w "supercollider.evaluate.postFlashTime" 600)
       :: mkTimer (resolve (evaluateFlashDelay (evaluateUID w + 1)))
                  (get w "supercollider.evaluate.flashTime" 50)
       :: mkTimer (clearIfCurrent ed (evaluateUID w + 1)) 5000
       :: timers w
  /\ (forall uid v, runTimer (clearIfCurrent ed uid) v = timeoutCallback ed uid v)
  /\ (forall uid v, evaluateUID v = uid ->
        timeoutCallback ed uid v = setDecorations ed evaluateDecorator [] v
        /\ shown (timeoutCallback ed uid v) ed evaluateDecorator = [])
  /\ (forall uid v, evaluateUID v <> uid -> timeoutCallback ed uid v = v)
  /\ (forall uid v ed',
        shown (timeoutCallback ed uid v) ed' successDecorator
        = shown v ed' successDecorator
        /\ shown (timeoutCallback ed uid v) ed' errorDecorator
           = shown v ed' errorDecorator).
Proof.
  split; [reflexivity | split; [reflexivity | split; [reflexivity |]]].
  split; [| split].
  - intros uid v <-. unfold timeoutCallback. rewrite Z.eqb_refl.
    split; [reflexivity |]. unfold shown. simpl. rewrite Nat.eqb_refl. reflexivity.
  - intros uid v. apply timeoutCallback_stale.
  - intros uid v ed'. unfold timeoutCallback.
    destruct (evaluateUID v =? uid); [| split; reflexivity].
    unfold shown. simpl. rewrite !andb_false_r. split; reflexivity.
Qed.

(** What the recorder saw is what any callback is given. *)
Lemma dispatch_recorded res t e :
  responseHandler recorder res [] = [(t, e)] ->
  forall S (f : jsstring -> bool -> S -> S), responseHandler f res = f t e.
Proof.
  unfold responseHandler, recorder.
  destruct (result res); [| destruct (compileError res); [| destruct (error res)]];
    simpl; intros H; try discriminate; injection H as <- <-; reflexivity.
Qed.

Lemma afterFlashDelay_shown ed r t isError post w :
  shown (afterFlashDelay ed r t isError post w) ed
        (if isError then errorDecorator else successDecorator)
  = [mkDecoration r (MarkdownString t)]
  /\ shown (afterFlashDelay ed r t isError post w) ed evaluateDecorator = [].
Proof.
  unfold shown. destruct isError; simpl; rewrite Nat.eqb_refl; simpl; auto.
Qed.

(** The two orders of arrival, on the two invocations of the example:
    the older response is dropped in both, and the two runs end with the
    same decoration calls and the same single activation, that of the
    newer invocation. *)
Example arrival_order_is_irrelevant :
  option_map (fun v => (log v, frames v))
    (run (Examples.twoOnOneEditor
            ++ [Response 1 (Examples.succeeded "1"); Response 0 (Examples.failed "E")])
         (initial Examples.defaults))
  = option_map (fun v => (log v, frames v))
      (run (Examples.twoOnOneEditor
              ++ [Response 0 (Examples.failed "E"); Response 0 (Examples.succeeded "1")])
           (initial Examples.defaults))
  /\ option_map frames
       (run (Examples.twoOnOneEditor
               ++ [Response 1 (Examples.succeeded "1"); Response 0 (Examples.failed "E")])
            (initial Examples.defaults))
     = Some [atFlashDelay 0%nat Examples.rangeB (lit "E") true
               (evaluateFlashDelay 2) (postEvaluateFlashDelay 2)].
Proof. split; vm_compute; reflexivity. Qed.

(** C3, as the code has it: the generation counter is one counter shared
    by all editors, while what is painted is kept per editor.  An
    invocation on editor [edB] makes its decoration calls on [edB] only
    and leaves what any other editor shows unchanged, but it advances
    the shared counter: from then on (in any world whose counter is at
    least the new value) a response of an invocation started before it
    that has not been handled yet is discarded, and so is its timeout if
    the timer has not fired yet, also on other editors.  It removes no
    activation of [onEndEvaluate]: an earlier invocation whose response
    was handled while it was the latest one keeps its activation, which
    paints the result on its own editor once the flash delay is over,
    whatever the counter is by then, and leaves [edB] as it is. *)
Theorem C3_counter_is_shared_across_editors edB rB w fA :
  finishEditor fA <> edB ->
  currentEvaluateUID fA <= evaluateUID w ->
  let w' := snd (onStartEvaluate edB rB w) in
  let activation t e :=
    atFlashDelay (finishEditor fA) (finishRange fA) t e
      (finishFlashDelay fA) (finishPostFlashDelay fA) in
  (forall d, shown w' (finishEditor fA) d = shown w (finishEditor fA) d)
  /\ (exists c1 c2 c3,
        log w' = c3 :: c2 :: c1 :: log w
        /\ textEditor c1 = edB /\ textEditor c2 = edB /\ textEditor c3 = edB)
  /\ evaluateUID w' = evaluateUID w + 1
  /\ (forall v, evaluateUID w' <= evaluateUID v ->
        (forall res, responseHandler (finishFunc fA) res v = v)
        /\ (forall t e, finishFunc fA t e v = v)
        /\ timeoutCallback (finishEditor fA) (currentEvaluateUID fA) v = v)
  /\ frames w' = frames w
  /\ (evaluateUID w = currentEvaluateUID fA ->
      forall t e,
        frames (snd (onStartEvaluate edB rB (finishFunc fA t e w)))
        = activation t e :: frames w)
  /\ (forall t e v,
        isResolved (finishFlashDelay fA) v = true ->
        exists v',
          resumeFrame (activation t e) v = Some v'
          /\ shown v' (finishEditor fA)
                   (if e then errorDecorator else successDecorator)
             = [mkDecoration (finishRange fA) (MarkdownString t)]
          /\ shown v' (finishEditor fA) evaluateDecorator = []
          /\ forall d, shown v' edB d = shown v edB d).
Proof.
  intros Hne Hle. cbv zeta.
  assert (E : Nat.eqb edB (finishEditor fA) = false)
    by (apply Nat.eqb_neq; congruence).
  assert (E' : Nat.eqb (finishEditor fA) edB = false)
    by (apply Nat.eqb_neq; congruence).
  split; [| split; [| split; [| split; [| split; [| split]]]]].
  - intros d. unfold shown. simpl. rewrite E. reflexivity.
  - do 3 eexists. simpl. split; [reflexivity |]. simpl. auto.
  - reflexivity.
  - intros v Hv. simpl in Hv.
    assert (Stale : evaluateUID v <> currentEvaluateUID fA) by lia.
    split; [| split].
    + intros res. apply responseHandler_stale; exact Stale.
    + intros t e. apply finishFunc_stale; exact Stale.
    + apply timeoutCallback_stale; exact Stale.
  - reflexivity.
  - intros Hu t e. rewrite finishFunc_current by exact Hu. reflexivity.
  - intros t e v Hv. eexists. cbn [resumeFrame]. rewrite Hv.
    split; [reflexivity |].
    destruct (afterFlashDelay_shown (finishEditor fA) (finishRange fA) t e
                (finishPostFlashDelay fA) v) as (S1 & S2).
    split; [exact S1 | split; [exact S2 |]].
    intros d. unfold shown. destruct e; simpl; rewrite E'; reflexivity.
Qed.

Lemma C3_counter_is_shared_across_editors_witness :
  finishEditor Examples.finishOne <> 2%nat
  /\ currentEvaluateUID Examples.finishOne <= evaluateUID Examples.afterOne
  /\ finishFunc Examples.finishOne (lit "2") false
       (snd (onStartEvaluate 2%nat Examples.rangeB Examples.afterOne))
     = snd (onStartEvaluate 2%nat Examples.rangeB Examples.afterOne).
Proof.
  assert (Hne : finishEditor Examples.finishOne <> 2%nat) by (simpl; lia).
  assert (Hle : currentEvaluateUID Examples.finishOne <= evaluateUID Examples.afterOne)
    by (simpl; lia).
  split; [exact Hne | split; [exact Hle |]].
  destruct (@C3_counter_is_shared_across_editors 2%nat Examples.rangeB
              Examples.afterOne Examples.finishOne Hne Hle) as (_ & _ & _ & D & _).
  destruct (D (snd (onStartEvaluate 2%nat Examples.rangeB Examples.afterOne))
              ltac:(simpl; lia)) as (_ & F & _).
  exact (F (lit "2") false).
Defined.

(** The claim as written does not hold of the code.  An invocation on
    editor 1 alone: its response starts the success transition and its
    timeout clears the evaluating decoration.  With an invocation on
    editor 2 started in between, the same response makes no decoration
    call and creates no activation, and the same timeout leaves the
    evaluating decoration of editor 1 painted.  The timers expire in the
    order of their deadlines: the two flash timers, the two post-flash
    timers, then the timeout of editor 1. *)
Lemma C3_counterexample :
  option_map frames
    (run (Examples.oneInFlight ++ [Response 0 (Examples.succeeded "2")])
         (initial Examples.defaults))
  = Some [atFlashDelay 1%nat Examples.rangeA (lit "2") false
            (evaluateFlashDelay 1) (postEvaluateFlashDelay 1)]
  /\ option_map frames
       (run (Examples.twoEditors ++ [Response 1 (Examples.succeeded "2")])
            (initial Examples.defaults))
     = Some []
  /\ option_map log
       (run (Examples.twoEditors ++ [Response 1 (Examples.succeeded "2")])
            (initial Examples.defaults))
     = option_map log (run Examples.twoEditors (initial Examples.defaults))
  /\ option_map (fun v => shown v 1%nat evaluateDecorator)
       (run (Examples.oneInFlight ++ [TimerFires 1; TimerFires 0; TimerFires 0])
            (initial Examples.defaults))
     = Some []
  /\ Spec2.expired (Examples.oneInFlight ++ [TimerFires 1; TimerFires 0; TimerFires 0])
             (initial Examples.defaults)
     = [50; 600; 5000]
  /\ option_map (fun v => shown v 1%nat evaluateDecorator)
       (run (Examples.twoEditors
               ++ [TimerFires 4; TimerFires 1; TimerFires 2; TimerFires 0;
                   TimerFires 1])
            (initial Examples.defaults))
     = Some [mkDecoration Examples.rangeA (PlainText "Evaluated the thing")]
  /\ Spec2.expired (Examples.twoEditors
                ++ [TimerFires 4; TimerFires 1; TimerFires 2; TimerFires 0;
                    TimerFires 1])
             (initial Examples.defaults)
     = [50; 50; 600; 600; 5000].
Proof. repeat split; vm_compute; reflexivity. Qed.

End FeedbackFacts.

(* ===================================================================== *)
(** ** Properties of the commands *)
(* ===================================================================== *)

Module CommandFacts.

Import Js Vscode Evaluate Feedback Commands Spec RegionFacts.
Local Open Scope Z_scope.

(** C6, where the code departs from it: with no editor in focus, region
    mode reads [activeTextEditor.document] before it tests
    [activeTextEditor], and each of the three command handlers reads it
    with no test at all, so all four throw a [TypeError] to their caller;
    the two other locators test first and return [null]. *)
Theorem C6_no_editor_in_focus_throws (w : World) (inputRange : option InputRange) :
  currentDocumentRegion None = Throw TypeError
  /\ evaluateRegion None w = Throw TypeError
  /\ evaluateLine None w = Throw TypeError
  /\ evaluateSelection None inputRange w = Throw TypeError
  /\ currentDocumentSelection None = Return None
  /\ currentDocumentLine None = Return None.
Proof. repeat split. Qed.

(** With an editor in focus and no argument, none of the locators and
    none of the commands throws. *)
Lemma commands_return ed w :
  validEditor ed ->
  (exists r, currentDocumentSelection (Some ed) = Return r)
  /\ (exists r, currentDocumentLine (Some ed) = Return r)
  /\ (exists r, currentDocumentRegion (Some ed) = Return r)
  /\ (exists w', evaluateSelection (Some ed) None w = Return w')
  /\ (exists w', evaluateLine (Some ed) w = Return w')
  /\ (exists w', evaluateRegion (Some ed) w = Return w').
Proof.
  intros Hv. pose proof Hv as (H0 & Hse & He).
  destruct (@lineAt_inside (document ed) (line (start (selection ed))))
    as (ls & Es & _); [lia |].
  destruct (@lineAt_inside (document ed) (line (end_ (selection ed))))
    as (le & Ee & _); [lia |].
  assert (Line : exists r, currentDocumentLine (Some ed) = Return r).
  { unfold currentDocumentLine. rewrite Es. cbn [bind]. rewrite Ee. cbn [bind].
    eexists; reflexivity. }
  assert (Region : exists r, currentDocumentRegion (Some ed) = Return r).
  { destruct (region_spec Hv) as [(a & b & E & _) | (E & _)];
      rewrite E; eexists; reflexivity. }
  split; [eexists; reflexivity | split; [exact Line | split; [exact Region |]]].
  destruct Line as (rl & El). destruct Region as (rr & Er).
  split; [| split].
  - unfold evaluateSelection. cbn [prop bind currentDocumentSelection].
    destruct (isEmpty (selection ed)).
    + rewrite El. cbn [bind]. eexists; reflexivity.
    + cbn [bind]. eexists; reflexivity.
  - unfold evaluateLine. cbn [prop bind]. rewrite El. cbn [bind].
    eexists; reflexivity.
  - unfold evaluateRegion. cbn [prop bind]. rewrite Er. cbn [bind].
    eexists; reflexivity.
Qed.

End CommandFacts.

(* ===================================================================== *)
(** ** More on the locators *)
(* ===================================================================== *)

Module LocatorFacts.

Import Js RegExp Vscode Evaluate Spec Spec2 RegExpFacts RegionFacts.
Local Open Scope Z_scope.

Lemma segment_single d l :
  isLineOf d l -> segment d (lineNumber l) (lineNumber l) = [text l].
Proof.
  intros Hl. rewrite segment_cons by (auto; lia).
  rewrite segment_empty by lia. reflexivity.
Qed.

(** X1: On the text of a line (no line terminator in it) the opening test
    holds exactly when the text begins with a left parenthesis: whatever
    follows it, code included, the line counts as an opening marker. *)
Theorem X_opening_test_is_first_character s :
  forallb isDot s = true ->
  (test startRE s = true <-> exists t, s = 40%N :: t).
Proof.
  intros Hs. split.
  - apply startRE_head.
  - intros (t & ->). cbn [forallb] in Hs. apply andb_true_iff in Hs as [_ Ht].
    apply startRE_on_line; exact Ht.
Qed.

Lemma X_opening_test_is_first_character_witness :
  forallb isDot (lit "(1 + 1).postln;") = true
  /\ test startRE (lit "(1 + 1).postln;") = true.
Proof.
  split; [reflexivity |].
  apply (proj2 (@X_opening_test_is_first_character (lit "(1 + 1).postln;") eq_refl)).
  eexists; reflexivity.
Defined.

(** X3: The span of region mode starts in column 0 of a line at or above
    the start of the selection that passes the opening test, and of the
    nearest such line: no line between it and the start of the selection
    passes the test (whether or not the block it opens was closed above
    the selection); the span ends at the end of a line strictly below
    that line. *)
Theorem X_region_starts_at_nearest_opening ed r :
  validEditor ed ->
  currentDocumentRegion (Some ed) = Return (Some r) ->
  character (start r) = 0
  /\ line (start r) <= line (start (selection ed))
  /\ line (start r) < line (end_ r)
  /\ (exists ls, isLineOf (document ed) ls
                 /\ lineNumber ls = line (start r)
                 /\ test startRE (text ls) = true)
  /\ (forall k, isLineOf (document ed) k ->
        line (start r) < lineNumber k <= line (start (selection ed)) ->
        test startRE (text k) = false)
  /\ exists le, isLineOf (document ed) le
                /\ lineNumber le = line (end_ r)
                /\ character (end_ r) = Js.length (text le).
Proof.
  intros Hv Hr.
  destruct (region_spec Hv) as
    [(ls & le & E & L1 & L2 & B1 & B2 & T1 & T2 & Near & Z2 & F2) | (E & _)];
    rewrite E in Hr; [| discriminate].
  injection Hr as <-. cbn [start end_ line character].
  assert (Hlt : lineNumber ls < lineNumber le).
  { destruct (Z.eq_dec (lineNumber ls) (lineNumber le)) as [Q |].
    - rewrite (isLineOf_unique L1 L2 Q) in T1.
      rewrite (markers_exclusive _ T1) in T2. discriminate.
    - destruct Hv as (_ & Hse & _). lia. }
  conjs; auto; [exists ls | exists le]; conjs; auto.
Qed.

Lemma X_region_starts_at_nearest_opening_witness :
  validEditor (Examples.editorOn 0%nat Examples.nested 2 2)
  /\ line (start (mkRange (mkPosition 1 0) (mkPosition 3 1))) < 3.
Proof.
  assert (Hv : validEditor (Examples.editorOn 0%nat Examples.nested 2 2))
    by (unfold validEditor, lineCount; simpl; lia).
  split; [exact Hv |].
  destruct (@X_region_starts_at_nearest_opening
              (Examples.editorOn 0%nat Examples.nested 2 2)
              (mkRange (mkPosition 1 0) (mkPosition 3 1)) Hv eq_refl)
    as (_ & _ & Hlt & _).
  exact Hlt.
Defined.

(** X4: Region mode is idempotent: run again with its own span as the
    selection, it returns the same span. *)
Theorem X_region_is_idempotent ed r :
  validEditor ed ->
  currentDocumentRegion (Some ed) = Return (Some r) ->
  currentDocumentRegion (Some (mkTextEditor (editorId ed) (document ed) r))
  = Return (Some r).
Proof.
  intros Hv Hr.
  destruct (region_spec Hv) as
    [(ls & le & E & L1 & L2 & B1 & B2 & T1 & T2 & Near & Z2 & F2) | (E & _)];
    rewrite E in Hr; [| discriminate].
  injection Hr as <-.
  set (ed' := mkTextEditor (editorId ed) (document ed)
                (mkRange (mkPosition (lineNumber ls) 0)
                         (mkPosition (lineNumber le) (Js.length (text le))))).
  assert (Hlt : lineNumber ls < lineNumber le).
  { destruct (Z.eq_dec (lineNumber ls) (lineNumber le)) as [Q |].
    - rewrite (isLineOf_unique L1 L2 Q) in T1.
      rewrite (markers_exclusive _ T1) in T2. discriminate.
    - destruct Hv as (_ & Hse & _). lia. }
  assert (Hv' : validEditor ed').
  { unfold validEditor, ed'. cbn [selection document start end_ line].
    destruct L1 as [R1 _], L2 as [R2 _]. lia. }
  assert (N0 : depthAfter (segment (document ed) (lineNumber le) (lineNumber le)) 1 = 0).
  { rewrite segment_single by exact L2.
    change (nest (text le) 1 = 0).
    destruct (nest_cases (text le) 1) as [(_ & F & _) | [(_ & _ & N) | (_ & F & _)]];
      [congruence | lia | congruence]. }
  destruct (region_spec Hv') as
    [(ls' & le' & E' & L1' & L2' & B1' & B2' & T1' & T2' & Near' & Z2' & F2')
    | (E' & [No | (_ & All)])];
    cbn [ed' selection document start end_ line] in *.
  - rewrite E'. do 3 f_equal.
    + assert (Q : lineNumber ls' = lineNumber ls).
      { destruct (Z.eq_dec (lineNumber ls') (lineNumber ls)) as [Q |]; [exact Q |].
        rewrite (Near' ls L1) in T1; [discriminate | lia]. }
      rewrite Q. reflexivity.
    + assert (Q : lineNumber le' = lineNumber le).
      { destruct (Z.eq_dec (lineNumber le') (lineNumber le)) as [Q |]; [exact Q |].
        assert (1 <= depthAfter (segment (document ed) (lineNumber le) (lineNumber le)) 1)
          by (apply F2'; lia).
        lia. }
      rewrite (isLineOf_unique L2' L2 Q). reflexivity.
  - rewrite (No ls L1) in T1; [discriminate | lia].
  - destruct L2 as [R2 _].
    assert (1 <= depthAfter (segment (document ed) (lineNumber le) (lineNumber le)) 1)
      by (apply All; lia).
    lia.
Qed.

Lemma X_region_is_idempotent_witness :
  validEditor (Examples.editorOn 0%nat Examples.outer 3 3)
  /\ currentDocumentRegion
       (Some (mkTextEditor 0%nat
                (document (Examples.editorOn 0%nat Examples.outer 3 3))
                (mkRange (mkPosition 2 0) (mkPosition 4 1))))
     = Return (Some (mkRange (mkPosition 2 0) (mkPosition 4 1))).
Proof.
  assert (Hv : validEditor (Examples.editorOn 0%nat Examples.outer 3 3))
    by (unfold validEditor, lineCount; simpl; lia).
  split; [exact Hv |].
  exact (@X_region_is_idempotent (Examples.editorOn 0%nat Examples.outer 3 3)
           (mkRange (mkPosition 2 0) (mkPosition 4 1)) Hv eq_refl).
Defined.

(** X5: Line mode returns the whole lines the selection touches: from column
    0 of the line of its start to the end of the line of its end; run
    again on that range it returns the same range. *)
Theorem X_line_mode_whole_lines ed :
  validEditor ed ->
  exists te,
    nth_error (lines (document ed)) (Z.to_nat (line (end_ (selection ed)))) = Some te
    /\ currentDocumentLine (Some ed)
       = Return (Some (mkRange (mkPosition (line (start (selection ed))) 0)
                               (mkPosition (line (end_ (selection ed))) (Js.length te))))
    /\ currentDocumentLine
         (Some (mkTextEditor (editorId ed) (document ed)
                  (mkRange (mkPosition (line (start (selection ed))) 0)
                           (mkPosition (line (end_ (selection ed))) (Js.length te)))))
       = currentDocumentLine (Some ed).
Proof.
  intros (H0 & Hse & He).
  destruct (@lineAt_inside (document ed) (line (start (selection ed))))
    as (ls & Es & Ns & Ls); [lia |].
  destruct (@lineAt_inside (document ed) (line (end_ (selection ed))))
    as (le & Ee & Ne & Le); [lia |].
  exists (text le). destruct Le as [_ Ht]. rewrite Ne in Ht.
  split; [exact Ht |].
  assert (E : currentDocumentLine (Some ed)
              = Return (Some (mkRange (mkPosition (line (start (selection ed))) 0)
                                      (mkPosition (line (end_ (selection ed)))
                                                  (Js.length (text le)))))).
  { unfold currentDocumentLine. rewrite Es. cbn [bind]. rewrite Ee. cbn [bind].
    do 2 f_equal. unfold newRange, isBefore, lineRange. cbn [start end_ line character].
    rewrite Ns, Ne.
    destruct (line (start (selection ed)) <? line (end_ (selection ed))) eqn:Lt;
      [reflexivity |].
    apply Z.ltb_ge in Lt. cbn [orb].
    destruct (line (start (selection ed)) =? line (end_ (selection ed))) eqn:Eq;
      cbn [andb].
    - apply Z.eqb_eq in Eq.
      destruct (0 <? Js.length (text le)) eqn:Len; [reflexivity |].
      apply Z.ltb_ge in Len. unfold Js.length in *.
      replace (Z.of_nat (List.length (text le))) with 0 by lia.
      rewrite Eq. reflexivity.
    - apply Z.eqb_neq in Eq. lia. }
  split; [exact E |].
  rewrite E. unfold currentDocumentLine. cbn [selection document start end_ line].
  rewrite Es. cbn [bind]. rewrite Ee. cbn [bind].
  unfold currentDocumentLine in E. rewrite Es in E. cbn [bind] in E.
  rewrite Ee in E. cbn [bind] in E. exact E.
Qed.

Lemma X_line_mode_whole_lines_witness :
  validEditor (Examples.editorOn 0%nat Examples.block 1 2)
  /\ currentDocumentLine (Some (Examples.editorOn 0%nat Examples.block 1 2))
     = Return (Some (mkRange (mkPosition 1 0) (mkPosition 2 1))).
Proof.
  assert (Hv : validEditor (Examples.editorOn 0%nat Examples.block 1 2))
    by (unfold validEditor, lineCount; simpl; lia).
  split; [exact Hv |].
  destruct (X_line_mode_whole_lines Hv) as (te & Ht & E & _).
  rewrite E. injection Ht as <-. reflexivity.
Defined.

Lemma void_not_nullable r : void r = true -> nullable r = false.
Proof.
  induction r; simpl; intros H; try discriminate; auto.
  - apply orb_true_iff in H as [H | H].
    + rewrite (IHr1 H). reflexivity.
    + rewrite (IHr2 H). apply andb_false_r.
  - apply andb_true_iff in H as [H1 H2]. rewrite IHr1, IHr2; auto.
Qed.

Lemma void_deriv c r : void r = true -> void (deriv c r) = true.
Proof.
  induction r; simpl; intros H; try discriminate; auto.
  - apply orb_true_iff in H as [H | H].
    + rewrite (void_not_nullable _ H). simpl. rewrite (IHr1 H). reflexivity.
    + destruct (nullable r1); simpl; rewrite H, ?(IHr2 H), ?orb_true_r; reflexivity.
  - apply andb_true_iff in H as [H1 H2]. rewrite IHr1, IHr2; auto.
Qed.

Lemma void_accepts s : forall r, void r = true -> accepts r s = false.
Proof.
  induction s as [| c s IH]; intros r H; simpl.
  - apply void_not_nullable; exact H.
  - apply IH. apply void_deriv; exact H.
Qed.

(** X2: A closing marker stands alone on its line: after the right
    parenthesis only white space, a semicolon or a comment may come, so a
    line such as a right parenthesis followed by a method call closes no
    region. *)
Theorem X_closing_marker_stands_alone c t :
  test endRE (41%N :: c :: t) = true ->
  isSpace c = true \/ c = 59%N \/ c = 47%N.
Proof.
  intros H.
  destruct (isSpace c) eqn:Ws; [left; reflexivity |].
  destruct (N.eqb 59 c) eqn:Semi; [right; left; apply N.eqb_eq in Semi; auto |].
  destruct (N.eqb 47 c) eqn:Slash; [right; right; apply N.eqb_eq in Slash; auto |].
  exfalso. unfold test in H. cbn [accepts] in H.
  rewrite void_accepts in H; [discriminate |].
  unfold endRE, Chr, Opt, ws, dot. simpl.
  change (match c with 0%N => false | N.pos q => (59 =? q)%positive end)
    with (N.eqb 59 c).
  change (match c with 0%N => false | N.pos q => (47 =? q)%positive end)
    with (N.eqb 47 c).
  rewrite Ws, Semi, Slash. reflexivity.
Qed.

Lemma X_closing_marker_stands_alone_witness :
  isSpace 59%N = true \/ 59%N = 59%N \/ 59%N = 47%N.
Proof.
  apply (@X_closing_marker_stands_alone 59%N (lit " // end")). reflexivity.
Defined.

End LocatorFacts.

(* ===================================================================== *)
(** ** More on the commands *)
(* ===================================================================== *)

Module CommandMore.

Import Js Vscode Evaluate Feedback Commands Spec RegionFacts.
Local Open Scope Z_scope.

Lemma isEqual_sym a b : isEqual a b = isEqual b a.
Proof.
  unfold isEqual. rewrite (Z.eqb_sym (line a)), (Z.eqb_sym (character a)).
  reflexivity.
Qed.

Lemma isBefore_asym a b : isBefore a b = true -> isBefore b a = false.
Proof.
  unfold isBefore. intros H.
  apply orb_true_iff in H as [H | H].
  - apply Z.ltb_lt in H. apply orb_false_iff. split.
    + apply Z.ltb_ge. lia.
    + apply andb_false_iff. left. apply Z.eqb_neq. lia.
  - apply andb_true_iff in H as [H1 H2].
    apply Z.eqb_eq in H1. apply Z.ltb_lt in H2. apply orb_false_iff. split.
    + apply Z.ltb_ge. lia.
    + apply andb_false_iff. right. apply Z.ltb_ge. lia.
Qed.

(** X6: [supercollider.evaluateSelection] with its argument, an editor being
    in focus: a negative component of the argument makes the command
    throw; an argument that is an empty range is dropped and the command
    evaluates the lines of the editor's own selection, as
    [supercollider.evaluateLine] does; any other argument is evaluated as
    given, its two positions put in order, whatever the editor's
    selection is. *)
Theorem X_evaluateSelection_argument ed i w :
  let a := mkPosition (startLine i) (startCharacter i) in
  let b := mkPosition (endLine i) (endCharacter i) in
  ((startLine i < 0 \/ startCharacter i < 0 \/ endLine i < 0 \/ endCharacter i < 0) ->
     evaluateSelection (Some ed) (Some i) w = Throw IllegalArgument)
  /\ (0 <= startLine i -> 0 <= startCharacter i ->
      0 <= endLine i -> 0 <= endCharacter i ->
      isEqual a b = true ->
      evaluateSelection (Some ed) (Some i) w = evaluateLine (Some ed) w)
  /\ (0 <= startLine i -> 0 <= startCharacter i ->
      0 <= endLine i -> 0 <= endCharacter i ->
      isEqual a b = false ->
      exists r,
        evaluateSelection (Some ed) (Some i) w
        = Return (evaluateString (Some (editorId ed)) (document ed) r w)
        /\ (r = mkRange a b \/ r = mkRange b a)
        /\ isBefore (end_ r) (start r) = false).
Proof.
  cbv zeta. unfold evaluateSelection, evaluateLine. cbn [prop bind].
  assert (Pos : forall l c, 0 <= l -> 0 <= c ->
            newPosition l c = Return (mkPosition l c)).
  { intros l c Hl Hc. unfold newPosition.
    replace (l <? 0) with false by (symmetry; apply Z.ltb_ge; lia).
    replace (c <? 0) with false by (symmetry; apply Z.ltb_ge; lia).
    reflexivity. }
  split; [| split].
  - intros Neg. unfold newPosition.
    destruct (startLine i <? 0) eqn:A; [reflexivity |].
    destruct (startCharacter i <? 0) eqn:B; [reflexivity |].
    cbn [bind].
    destruct (endLine i <? 0) eqn:C; [reflexivity |].
    destruct (endCharacter i <? 0) eqn:D; [reflexivity |].
    apply Z.ltb_ge in A, B, C, D. lia.
  - intros H1 H2 H3 H4 Eq. rewrite !Pos by assumption. cbn [bind].
    replace (isEmpty (newSelection (mkPosition (startLine i) (startCharacter i))
                                   (mkPosition (endLine i) (endCharacter i))))
      with true; [reflexivity |].
    unfold isEmpty, newSelection, newRange.
    destruct (isBefore _ _); cbn [start end_]; [| rewrite isEqual_sym]; auto.
  - intros H1 H2 H3 H4 Ne. rewrite !Pos by assumption. cbn [bind].
    replace (isEmpty (newSelection (mkPosition (startLine i) (startCharacter i))
                                   (mkPosition (endLine i) (endCharacter i))))
      with false.
    + cbn [bind provide option_map]. eexists. split; [reflexivity |].
      unfold newSelection, newRange.
      destruct (isBefore (mkPosition (startLine i) (startCharacter i))
                         (mkPosition (endLine i) (endCharacter i))) eqn:B;
        cbn [start end_]; split; auto.
      apply isBefore_asym; exact B.
    + unfold isEmpty, newSelection, newRange.
      destruct (isBefore _ _); cbn [start end_]; [| rewrite isEqual_sym]; auto.
Qed.

Lemma X_evaluateSelection_argument_witness :
  evaluateSelection (Some (Examples.editorOn 0%nat Examples.block 1 1))
    (Some (mkInputRange 2 1 0 0)) (initial Examples.defaults)
  = Return (evaluateString (Some 0%nat)
              (document (Examples.editorOn 0%nat Examples.block 1 1))
              (mkRange (mkPosition 0 0) (mkPosition 2 1))
              (initial Examples.defaults)).
Proof.
  destruct (@X_evaluateSelection_argument
              (Examples.editorOn 0%nat Examples.block 1 1)
              (mkInputRange 2 1 0 0) (initial Examples.defaults))
    as (_ & _ & Given).
  destruct Given as (r & E & [-> | ->] & Ord);
    [simpl; lia | simpl; lia | simpl; lia | simpl; lia | reflexivity | |].
  - discriminate Ord.
  - exact E.
Defined.

(** X7: [supercollider.evaluateRegion] with an editor in focus never throws:
    when region mode finds no span the world is left as it is, and
    otherwise exactly one invocation is started, with a request for the
    span of region mode. *)
Theorem X_evaluateRegion_starts_iff_span ed w :
  validEditor ed ->
  (currentDocumentRegion (Some ed) = Return None
   /\ evaluateRegion (Some ed) w = Return w)
  \/ (exists r w',
        currentDocumentRegion (Some ed) = Return (Some r)
        /\ evaluateRegion (Some ed) w = Return w'
        /\ evaluateUID w' = evaluateUID w + 1
        /\ pending w'
           = mkPending (mkParams (fileName (document ed)) r)
               (mkFinishFunc (editorId ed) r (evaluateUID w + 1)
                  (evaluateFlashDelay (evaluateUID w + 1))
                  (postEvaluateFlashDelay (evaluateUID w + 1)))
             :: pending w).
Proof.
  intros Hv. unfold evaluateRegion. cbn [prop bind].
  destruct (region_spec Hv) as [(ls & le & E & _) | (E & _)]; rewrite E; cbn [bind].
  - right. do 2 eexists. split; [reflexivity |]. split; [reflexivity |].
    split; reflexivity.
  - left. split; reflexivity.
Qed.

Lemma X_evaluateRegion_starts_iff_span_witness :
  validEditor (Examples.editorOn 0%nat Examples.blockX 0 0)
  /\ evaluateRegion (Some (Examples.editorOn 0%nat Examples.blockX 0 0))
       (initial Examples.defaults)
     = Return (initial Examples.defaults).
Proof.
  assert (Hv : validEditor (Examples.editorOn 0%nat Examples.blockX 0 0))
    by (unfold validEditor, lineCount; simpl; lia).
  split; [exact Hv |].
  destruct (X_evaluateRegion_starts_iff_span (initial Examples.defaults) Hv)
    as [(_ & E) | (r & w' & E & _)].
  - exact E.
  - discriminate E.
Defined.

End CommandMore.

(* ===================================================================== *)
(** ** More on the feedback state machine *)
(* ===================================================================== *)

Module LifecycleFacts.

Import Js Vscode Feedback Host Spec Spec2 FeedbackFacts.
Local Open Scope Z_scope.


Lemma shown_other_decorator ed d d' l w :
  decoratorEqb d' d = false ->
  shown (setDecorations ed d' l w) ed d = shown w ed d.
Proof.
  intros H. unfold shown. simpl. rewrite H, andb_false_r. reflexivity.
Qed.

Lemma shown_same_decorator ed d l w :
  shown (setDecorations ed d l w) ed d = l.
Proof.
  unfold shown. simpl. rewrite Nat.eqb_refl.
  destruct d; reflexivity.
Qed.

(** The world an invocation leaves, field by field. *)
Lemma evaluateString_world ed doc r w :
  evaluateString (Some ed) doc r w
  = mkWorld (evaluateUID w + 1) (configuration w)
      (mkCall ed evaluateDecorator
         [mkDecoration r (PlainText "Evaluated the thing")]
       :: mkCall ed errorDecorator []
       :: mkCall ed successDecorator [] :: log w)
      (mkTimer (resolve (postEvaluateFlashDelay (evaluateUID w + 1)))
               (get w "supercollider.evaluate.postFlashTime" 600)
       :: mkTimer (resolve (evaluateFlashDelay (evaluateUID w + 1)))
                  (get w "supercollider.evaluate.flashTime" 50)
       :: mkTimer (clearIfCurrent ed (evaluateUID w + 1)) decoratorTimeout
       :: timers w)
      (resolved w)
      (mkPending (mkParams (fileName doc) r)
         (mkFinishFunc ed r (evaluateUID w + 1)
            (evaluateFlashDelay (evaluateUID w + 1))
            (postEvaluateFlashDelay (evaluateUID w + 1)))
       :: pending w)
      (frames w).
Proof. reflexivity. Qed.

Lemma run_app es : forall es' w,
  run (es ++ es') w
  = match run es w with
    | Some v => run es' v
    | None => None
    end.
Proof.
  induction es as [| e es IH]; intros es' w; cbn [app run]; [reflexivity |].
  destruct (step e w); [apply IH | reflexivity].
Qed.

Lemma afterFlashDelay_world ed r t e post v :
  afterFlashDelay ed r t e post v
  = mkWorld (evaluateUID v) (configuration v)
      (mkCall ed (resultDecorator e) [mkDecoration r (MarkdownString t)]
       :: mkCall ed (resultDecorator (negb e)) []
       :: mkCall ed evaluateDecorator [] :: log v)
      (timers v) (resolved v) (pending v)
      (atPostFlashDelay ed e post :: frames v).
Proof. destruct e; reflexivity. Qed.

(** X8: The whole course of one invocation, from any world: the command
    paints the evaluating decoration on the range and clears the two
    result decorations of the editor; the response, once the flash timer
    has fired and the activation is resumed, paints the range with the
    response text as success or error decoration and clears the
    evaluating one; after the post-flash timer the editor shows none of
    the three decorations. *)
Theorem X_invocation_lifecycle w ed doc r res t e :
  responseHandler recorder res [] = [(t, e)] ->
  exists w1 w2 w3,
    run [Evaluate (Some ed) doc r] w = Some w1
    /\ shown w1 ed evaluateDecorator
       = [mkDecoration r (PlainText "Evaluated the thing")]
    /\ shown w1 ed successDecorator = []
    /\ shown w1 ed errorDecorator = []
    /\ run [Response 0 res; TimerFires 1; Resumes 0] w1 = Some w2
    /\ shown w2 ed (resultDecorator e) = [mkDecoration r (MarkdownString t)]
    /\ shown w2 ed (resultDecorator (negb e)) = []
    /\ shown w2 ed evaluateDecorator = []
    /\ run [TimerFires 0; Resumes 0] w2 = Some w3
    /\ (forall d, shown w3 ed d = []).
Proof.
  intros Hd.
  eexists. eexists. eexists.
  split; [cbn [run step]; rewrite evaluateString_world; reflexivity |].
  split; [unfold shown; simpl; rewrite Nat.eqb_refl; reflexivity |].
  split; [unfold shown; simpl; rewrite Nat.eqb_refl; reflexivity |].
  split; [unfold shown; simpl; rewrite Nat.eqb_refl; reflexivity |].
  split.
  { cbn [run step pending nth_error].
    rewrite (dispatch_recorded _ Hd).
    rewrite finishFunc_current by reflexivity.
    simpl. unfold isResolved. simpl. rewrite Z.eqb_refl. simpl.
    rewrite afterFlashDelay_world. simpl. reflexivity. }
  split; [destruct e; unfold shown; simpl; rewrite Nat.eqb_refl; reflexivity |].
  split; [destruct e; unfold shown; simpl; rewrite Nat.eqb_refl; reflexivity |].
  split; [destruct e; unfold shown; simpl; rewrite Nat.eqb_refl; reflexivity |].
  split.
  { simpl. unfold isResolved. simpl. rewrite Z.eqb_refl. simpl. reflexivity. }
  intros d. destruct e, d; unfold shown; simpl; rewrite ?Nat.eqb_refl; reflexivity.
Qed.

Lemma X_invocation_lifecycle_witness :
  exists w3,
    run [Evaluate (Some 0%nat) Examples.scd Examples.rangeA;
         Response 0 (Examples.failed "DivideByZero"); TimerFires 1; Resumes 0;
         TimerFires 0; Resumes 0]
        (initial Examples.defaults) = Some w3
    /\ shown w3 0%nat errorDecorator = [].
Proof.
  destruct (@X_invocation_lifecycle (initial Examples.defaults) 0%nat Examples.scd
              Examples.rangeA (Examples.failed "DivideByZero")
              (lit "DivideByZero") true eq_refl)
    as (w1 & w2 & w3 & R1 & _ & _ & _ & R2 & _ & _ & _ & R3 & Idle).
  exists w3. split; [| apply Idle].
  change (run ([Evaluate (Some 0%nat) Examples.scd Examples.rangeA]
               ++ [Response 0 (Examples.failed "DivideByZero"); TimerFires 1; Resumes 0]
               ++ [TimerFires 0; Resumes 0])
              (initial Examples.defaults) = Some w3).
  rewrite run_app.
  match goal with
  | |- match ?X with Some _ => _ | None => _ end = _ =>
      replace X with (Some w1) by (symmetry; exact R1)
  end.
  rewrite run_app, R2. exact R3.
Defined.

(** X9: A response that arrives after both delay timers of its invocation
    have fired is painted when its activation is resumed, and the
    clearing of what it painted is enabled in the very next turn: the
    post-flash delay runs from the start of the invocation, not from the
    painting. *)
Theorem X_late_response_is_cleared_at_once w ed doc r res t e :
  responseHandler recorder res [] = [(t, e)] ->
  exists w2 w3,
    run [Evaluate (Some ed) doc r; TimerFires 1; TimerFires 0;
         Response 0 res; Resumes 0] w = Some w2
    /\ shown w2 ed (resultDecorator e) = [mkDecoration r (MarkdownString t)]
    /\ step (Resumes 0) w2 = Some w3
    /\ (forall d, shown w3 ed d = []).
Proof.
  intros Hd. eexists. eexists.
  split.
  { cbn [run step]. rewrite evaluateString_world. simpl.
    rewrite (dispatch_recorded _ Hd).
    rewrite finishFunc_current by reflexivity.
    simpl. unfold isResolved. simpl. rewrite Z.eqb_refl. simpl.
    rewrite afterFlashDelay_world. simpl. reflexivity. }
  split; [destruct e; unfold shown; simpl; rewrite Nat.eqb_refl; reflexivity |].
  split.
  { simpl. unfold isResolved. simpl. rewrite Z.eqb_refl. simpl. reflexivity. }
  intros d. destruct e, d; unfold shown; simpl; rewrite ?Nat.eqb_refl; reflexivity.
Qed.

Lemma X_late_response_is_cleared_at_once_witness :
  exists w2 w3,
    run [Evaluate (Some 0%nat) Examples.scd Examples.rangeA; TimerFires 1;
         TimerFires 0; Response 0 (Examples.succeeded "2"); Resumes 0]
        (initial Examples.defaults) = Some w2
    /\ step (Resumes 0) w2 = Some w3
    /\ shown w3 0%nat successDecorator = [].
Proof.
  destruct (@X_late_response_is_cleared_at_once (initial Examples.defaults) 0%nat
              Examples.scd Examples.rangeA (Examples.succeeded "2")
              (lit "2") false eq_refl)
    as (w2 & w3 & R & _ & S & Idle).
  exists w2, w3. split; [exact R | split; [exact S | apply Idle]].
Defined.

Lemma finishFunc_cases f t e v :
  finishFunc f t e v = v
  \/ (evaluateUID v = currentEvaluateUID f
      /\ finishFunc f t e v
         = suspend (atFlashDelay (finishEditor f) (finishRange f) t e
                      (finishFlashDelay f) (finishPostFlashDelay f)) v).
Proof.
  destruct (Z.eq_dec (evaluateUID v) (currentEvaluateUID f)) as [E | N].
  - right. split; [exact E | apply finishFunc_current; exact E].
  - left. apply finishFunc_stale; exact N.
Qed.

Lemma responseHandler_cases f res v :
  responseHandler (finishFunc f) res v = v
  \/ (evaluateUID v = currentEvaluateUID f
      /\ exists t e,
           responseHandler (finishFunc f) res v
           = suspend (atFlashDelay (finishEditor f) (finishRange f) t e
                        (finishFlashDelay f) (finishPostFlashDelay f)) v).
Proof.
  unfold responseHandler.
  destruct (result res) as [t |];
    [| destruct (compileError res) as [t |];
       [| destruct (error res) as [t |]; [| left; reflexivity]]].
  - destruct (finishFunc_cases f t false v) as [E | (U & E)]; [left | right]; eauto.
  - destruct (finishFunc_cases f t true v) as [E | (U & E)]; [left | right]; eauto.
  - destruct (finishFunc_cases f t true v) as [E | (U & E)]; [left | right]; eauto.
Qed.

(** X10: Handling a response never makes a decoration call and never touches
    a timer or the counter: it retires the request and, at most, leaves
    one activation of [onEndEvaluate] waiting for the flash delay of the
    invocation, and that only for the invocation whose generation is the
    current one.  What a response paints is painted in a later turn. *)
Theorem X_response_never_paints i res w w' :
  step (Response i res) w = Some w' ->
  log w' = log w
  /\ timers w' = timers w
  /\ resolved w' = resolved w
  /\ evaluateUID w' = evaluateUID w
  /\ pending w' = removeAt i (pending w)
  /\ (frames w' = frames w
      \/ exists p t e,
           nth_error (pending w) i = Some p
           /\ currentEvaluateUID (finish p) = evaluateUID w
           /\ frames w'
              = atFlashDelay (finishEditor (finish p)) (finishRange (finish p)) t e
                  (finishFlashDelay (finish p)) (finishPostFlashDelay (finish p))
                :: frames w).
Proof.
  cbn [step]. destruct (nth_error (pending w) i) as [p |] eqn:Hp; [| discriminate].
  intros H. injection H as <-.
  destruct (responseHandler_cases (finish p) res (dropPending i w))
    as [E | (U & t & e & E)]; rewrite E.
  - cbn. repeat split; auto.
  - cbn. repeat split; auto. right. exists p, t, e. cbn in U. auto.
Qed.

Lemma X_response_never_paints_witness :
  log (dropPending 1 Examples.afterTwo) = log Examples.afterTwo.
Proof.
  assert (S : step (Response 1 (Examples.succeeded "2")) Examples.afterTwo
              = Some (dropPending 1 Examples.afterTwo)) by reflexivity.
  exact (proj1 (@X_response_never_paints _ _ _ _ S)).
Defined.

Lemma removeAt_map {A B : Type} (f : A -> B) i l :
  List.map f (removeAt i l) = removeAt i (List.map f l).
Proof.
  unfold removeAt. rewrite map_app, firstn_map, skipn_map. reflexivity.
Qed.

Lemma removeAt_In {A : Type} (y : A) l : forall i,
  In y (removeAt i l) -> In y l.
Proof.
  induction l as [| x l IH]; intros [| i] H; unfold removeAt in *; simpl in *; auto.
  destruct H as [H | H]; [left; exact H | right; apply (IH i); exact H].
Qed.

Lemma removeAt_Forall {A : Type} (P : A -> Prop) l i :
  Forall P l -> Forall P (removeAt i l).
Proof.
  intros H. rewrite Forall_forall in *. intros y Hy. apply H.
  eapply removeAt_In; exact Hy.
Qed.

Lemma removeAt_sorted (R : Z -> Z -> Prop) l : forall i,
  StronglySorted R l -> StronglySorted R (removeAt i l).
Proof.
  induction l as [| x l IH]; intros [| i] H.
  - exact H.
  - exact H.
  - inversion H; subst. exact H2.
  - inversion H; subst.
    change (StronglySorted R (x :: removeAt i l)).
    constructor; [apply IH; assumption | apply removeAt_Forall; assumption].
Qed.

Lemma step_inOrder e w w' : step e w = Some w' -> inOrder w -> inOrder w'.
Proof.
  intros Hs (Sorted & Bound & Pos).
  assert (Keep : forall v, pending v = pending w -> evaluateUID v = evaluateUID w ->
                           inOrder v).
  { intros v Hp Hu. unfold inOrder, pendingUids. rewrite Hp, Hu. auto. }
  destruct e as [[ed |] doc r | i res | i | i]; cbn [step] in Hs.
  - injection Hs as <-.
    change (inOrder (evaluateString (Some ed) doc r w)).
    rewrite evaluateString_world.
    unfold inOrder, pendingUids in *. cbn [pending evaluateUID List.map finish currentEvaluateUID].
    split; [| split; [| lia]].
    + constructor; auto. eapply Forall_impl; [| exact Bound].
      intros u Hu. cbv beta in Hu. lia.
    + constructor; [lia |]. eapply Forall_impl; [| exact Bound].
      intros u Hu. cbv beta in *. lia.
  - injection Hs as <-. apply Keep; reflexivity.
  - destruct (nth_error (pending w) i) as [p |]; [| discriminate].
    injection Hs as <-.
    assert (U : evaluateUID (responseHandler (finishFunc (finish p)) res (dropPending i w))
                = evaluateUID w) by (rewrite responseHandler_uid; reflexivity).
    assert (P : pending (responseHandler (finishFunc (finish p)) res (dropPending i w))
                = removeAt i (pending w)).
    { destruct (responseHandler_cases (finish p) res (dropPending i w))
        as [E | (_ & t & e & E)]; rewrite E; reflexivity. }
    unfold inOrder, pendingUids in *. rewrite U, P, removeAt_map.
    split; [apply removeAt_sorted; auto | split; [apply removeAt_Forall; auto | auto]].
  - destruct (nth_error (timers w) i) as [t |]; [| discriminate].
    injection Hs as <-. destruct (callback t) as [ed uid | p]; cbn [runTimer].
    + unfold timeoutCallback. cbn [dropTimer evaluateUID].
      destruct (evaluateUID w =? uid); apply Keep; reflexivity.
    + apply Keep; reflexivity.
  - destruct (nth_error (frames w) i) as [k |]; [| discriminate].
    destruct k as [ed r t isError fd pd | ed isError pd]; cbn [resumeFrame] in Hs.
    + destruct (isResolved fd (dropFrame i w)); [| discriminate].
      injection Hs as <-. destruct isError; apply Keep; reflexivity.
    + destruct (isResolved pd (dropFrame i w)); [| discriminate].
      injection Hs as <-. destruct isError; apply Keep; reflexivity.
Qed.

Lemma run_inOrder es : forall w w', run es w = Some w' -> inOrder w -> inOrder w'.
Proof.
  induction es as [| e es IH]; intros w w' H Hi; cbn [run] in H.
  - injection H as <-. exact Hi.
  - destruct (step e w) as [w1 |] eqn:Es; [| discriminate].
    eapply IH; [exact H |]. eapply step_inOrder; eauto.
Qed.

Lemma sorted_nth l : forall i j a b,
  StronglySorted Z.gt l -> (i < j)%nat ->
  nth_error l i = Some a -> nth_error l j = Some b -> a > b.
Proof.
  induction l as [| x l IH]; intros [| i] [| j] a b H Hij Ha Hb;
    simpl in *; try discriminate; try lia.
  - injection Ha as <-. inversion H; subst.
    match goal with K : Forall _ l |- _ => rewrite Forall_forall in K; apply K end.
    eapply nth_error_In; eauto.
  - inversion H; subst. eapply (IH i j); eauto. lia.
Qed.

(** X11: In every world reached from the initial one, the requests that await
    their response are held newest first with strictly decreasing
    generations between 1 and the counter: no two of them share a
    generation, so at most one of them, the request at index 0, can
    belong to the current generation and still be rendered. *)
Theorem X_pending_generations_are_distinct cfg es w :
  run es (initial cfg) = Some w ->
  StronglySorted Z.gt (pendingUids w)
  /\ Forall (fun u => 1 <= u <= evaluateUID w) (pendingUids w)
  /\ (forall i j p q,
        nth_error (pending w) i = Some p -> nth_error (pending w) j = Some q ->
        currentEvaluateUID (finish p) = currentEvaluateUID (finish q) -> i = j)
  /\ (forall i p,
        nth_error (pending w) i = Some p ->
        currentEvaluateUID (finish p) = evaluateUID w -> i = O).
Proof.
  intros H.
  assert (I0 : inOrder (initial cfg)).
  { unfold inOrder, pendingUids. cbn. split; [constructor | split; [constructor | lia]]. }
  destruct (@run_inOrder _ _ _ H I0) as (Sorted & Bound & Pos).
  assert (Uid : forall i p, nth_error (pending w) i = Some p ->
            nth_error (pendingUids w) i = Some (currentEvaluateUID (finish p))).
  { intros i p Hp. unfold pendingUids. rewrite nth_error_map, Hp. reflexivity. }
  split; [exact Sorted | split; [exact Bound | split]].
  - intros i j p q Hp Hq E. apply Uid in Hp, Hq.
    destruct (Nat.lt_trichotomy i j) as [L | [L | L]]; [| exact L |].
    + pose proof (@sorted_nth _ _ _ _ _ Sorted L Hp Hq). lia.
    + pose proof (@sorted_nth _ _ _ _ _ Sorted L Hq Hp). lia.
  - intros i p Hp E. destruct i as [| i]; [reflexivity |].
    destruct (pending w) as [| q0 rest] eqn:Ep; [discriminate |].
    assert (H0 : nth_error (pendingUids w) 0 = Some (currentEvaluateUID (finish q0)))
      by (unfold pendingUids; rewrite Ep; reflexivity).
    assert (Hi : nth_error (pendingUids w) (S i) = Some (currentEvaluateUID (finish p)))
      by (unfold pendingUids; rewrite Ep, nth_error_map; cbn [nth_error] in *;
          rewrite Hp; reflexivity).
    pose proof (@sorted_nth _ _ _ _ _ Sorted (Nat.lt_0_succ i) H0 Hi) as G.
    rewrite Forall_forall in Bound.
    assert (B0 : 1 <= currentEvaluateUID (finish q0) <= evaluateUID w)
      by (apply Bound; eapply nth_error_In; exact H0).
    lia.
Qed.

Lemma X_pending_generations_are_distinct_witness :
  run Examples.twoOnOneEditor (initial Examples.defaults) = Some Examples.afterTwo
  /\ pendingUids Examples.afterTwo = [2; 1]
  /\ StronglySorted Z.gt (pendingUids Examples.afterTwo).
Proof.
  assert (R : run Examples.twoOnOneEditor (initial Examples.defaults)
              = Some Examples.afterTwo) by reflexivity.
  split; [exact R | split; [reflexivity |]].
  exact (proj1 (@X_pending_generations_are_distinct _ _ _ R)).
Defined.

(** Puts the worlds of the goal in the form of a record. *)
Ltac world :=
  cbv [setDecorations setTimeout suspend sendRequest settle preIncrement
       dropTimer dropPending dropFrame removeAt firstn skipn app
       evaluateUID configuration log timers resolved pending frames].

Lemma run_cons e es w :
  run (e :: es) w
  = match step e w with
    | Some v => run es v
    | None => None
    end.
Proof. reflexivity. Qed.

Lemma step_Evaluate ed doc r w :
  step (Evaluate (Some ed) doc r) w = Some (evaluateString (Some ed) doc r w).
Proof. reflexivity. Qed.

(** X12: The timeout is visual only.  Its callback changes nothing but what
    is painted: the counter, the awaited requests, the suspended
    activations and the resolved delays are as before, so the request is
    neither cancelled nor made stale.  With delays as the default
    settings have them (flash delay at most the post-flash delay, both
    below 5000) the three timers of an invocation, armed in the same
    turn, expire in the order flash, post-flash, timeout; after the
    timeout the evaluating decoration is cleared and the request is still
    awaited, and a response that arrives then is still painted when its
    activation is resumed, the clearing following in the next turn. *)
Theorem X_timeout_is_visual_only w ed doc r res t e :
  responseHandler recorder res [] = [(t, e)] ->
  get w "supercollider.evaluate.flashTime" 50
  <= get w "supercollider.evaluate.postFlashTime" 600 ->
  get w "supercollider.evaluate.postFlashTime" 600 < decoratorTimeout ->
  (forall i tm target uid v,
     nth_error (timers v) i = Some tm ->
     callback tm = clearIfCurrent target uid ->
     exists v',
       step (TimerFires i) v = Some v'
       /\ evaluateUID v' = evaluateUID v /\ pending v' = pending v
       /\ frames v' = frames v /\ resolved v' = resolved v
       /\ timers v' = removeAt i (timers v))
  /\ exists w1 w2 w3,
    run [Evaluate (Some ed) doc r; TimerFires 1; TimerFires 0; TimerFires 0] w
    = Some w1
    /\ expired [Evaluate (Some ed) doc r; TimerFires 1; TimerFires 0;
                TimerFires 0] w
       = [get w "supercollider.evaluate.flashTime" 50;
          get w "supercollider.evaluate.postFlashTime" 600;
          decoratorTimeout]
    /\ StronglySorted Z.le
         (expired [Evaluate (Some ed) doc r; TimerFires 1; TimerFires 0;
                   TimerFires 0] w)
    /\ shown w1 ed evaluateDecorator = []
    /\ evaluateUID w1 = evaluateUID w + 1
    /\ timers w1 = timers w
    /\ pending w1
       = mkPending (mkParams (fileName doc) r)
           (mkFinishFunc ed r (evaluateUID w + 1)
              (evaluateFlashDelay (evaluateUID w + 1))
              (postEvaluateFlashDelay (evaluateUID w + 1)))
         :: pending w
    /\ run [Response 0 res; Resumes 0] w1 = Some w2
    /\ shown w2 ed (resultDecorator e) = [mkDecoration r (MarkdownString t)]
    /\ step (Resumes 0) w2 = Some w3
    /\ (forall d, shown w3 ed d = []).
Proof.
  intros Hd Hfp Hpt. split.
  { intros i tm target uid v Hi Hc. eexists. cbn [step]. rewrite Hi, Hc.
    split; [reflexivity |]. cbn [runTimer]. unfold timeoutCallback.
    cbn [dropTimer evaluateUID].
    destruct (evaluateUID v =? uid); repeat split. }
  eexists. eexists. eexists.
  split.
  { rewrite run_cons, step_Evaluate, evaluateString_world. cbv beta iota.
    simpl. unfold timeoutCallback. simpl. rewrite Z.eqb_refl. world. reflexivity. }
  split.
  { cbn [expired]. rewrite step_Evaluate, evaluateString_world. cbv beta iota.
    simpl. reflexivity. }
  split.
  { cbn [expired]. rewrite step_Evaluate, evaluateString_world. cbv beta iota.
    simpl. repeat constructor; lia. }
  split; [unfold shown; simpl; rewrite Nat.eqb_refl; reflexivity |].
  split; [reflexivity |].
  split; [reflexivity |].
  split; [reflexivity |].
  split.
  { rewrite run_cons. cbn [step pending nth_error].
    rewrite (dispatch_recorded _ Hd).
    rewrite finishFunc_current by reflexivity.
    simpl. unfold isResolved. simpl. rewrite Z.eqb_refl. simpl.
    rewrite afterFlashDelay_world. simpl. reflexivity. }
  split; [destruct e; unfold shown; simpl; rewrite Nat.eqb_refl; reflexivity |].
  split.
  { simpl. unfold isResolved. simpl. rewrite Z.eqb_refl. simpl. reflexivity. }
  intros d. destruct e, d; unfold shown; simpl; rewrite ?Nat.eqb_refl; reflexivity.
Qed.

Lemma X_timeout_is_visual_only_witness :
  exists w1 w2,
    run [Evaluate (Some 0%nat) Examples.scd Examples.rangeA;
         TimerFires 1; TimerFires 0; TimerFires 0]
        (initial Examples.defaults) = Some w1
    /\ expired [Evaluate (Some 0%nat) Examples.scd Examples.rangeA;
                TimerFires 1; TimerFires 0; TimerFires 0]
               (initial Examples.defaults) = [50; 600; 5000]
    /\ run [Response 0 (Examples.succeeded "2"); Resumes 0] w1 = Some w2
    /\ shown w2 0%nat successDecorator
       = [mkDecoration Examples.rangeA (MarkdownString (lit "2"))].
Proof.
  assert (Hfp : get (initial Examples.defaults) "supercollider.evaluate.flashTime" 50
                <= get (initial Examples.defaults)
                     "supercollider.evaluate.postFlashTime" 600)
    by (vm_compute; discriminate).
  assert (Hpt : get (initial Examples.defaults)
                  "supercollider.evaluate.postFlashTime" 600 < decoratorTimeout)
    by reflexivity.
  destruct (@X_timeout_is_visual_only (initial Examples.defaults) 0%nat Examples.scd
              Examples.rangeA (Examples.succeeded "2") (lit "2") false eq_refl
              Hfp Hpt)
    as (_ & w1 & w2 & w3 & R1 & D & _ & _ & _ & _ & _ & R2 & S2 & _).
  exists w1, w2.
  split; [exact R1 | split; [exact D | split; [exact R2 | exact S2]]].
Defined.

(** X13: The clearing at the end of the display window is not guarded by the
    generation: when a second invocation on the editor has been painted
    with a result of the same kind while the first one still waits for
    its post-flash delay, the clearing of the first removes the
    decoration of the second, whose own post-flash timer has not fired
    yet. *)
Theorem X_clearing_is_not_guarded w ed doc rA rB resA resB tA tB e :
  responseHandler recorder resA [] = [(tA, e)] ->
  responseHandler recorder resB [] = [(tB, e)] ->
  exists w8 w10,
    run [Evaluate (Some ed) doc rA; Response 0 resA; TimerFires 1; Resumes 0;
         Evaluate (Some ed) doc rB; Response 0 resB; TimerFires 1; Resumes 0] w
    = Some w8
    /\ shown w8 ed (resultDecorator e) = [mkDecoration rB (MarkdownString tB)]
    /\ run [TimerFires 2; Resumes 1] w8 = Some w10
    /\ shown w10 ed (resultDecorator e) = []
    /\ nth_error (timers w10) 0
       = Some (mkTimer (resolve (postEvaluateFlashDelay (evaluateUID w + 1 + 1)))
                       (get w "supercollider.evaluate.postFlashTime" 600)).
Proof.
  intros HA HB. eexists. eexists.
  split.
  { rewrite run_cons, step_Evaluate, evaluateString_world. cbv beta iota.
    rewrite run_cons. cbn [step pending nth_error].
    rewrite (dispatch_recorded _ HA).
    rewrite finishFunc_current by reflexivity. cbv beta iota.
    rewrite run_cons. simpl step. cbv beta iota.
    rewrite run_cons. simpl step. unfold isResolved. simpl existsb.
    rewrite Z.eqb_refl. cbn [orb]. cbv beta iota.
    rewrite afterFlashDelay_world. world.
    rewrite run_cons, step_Evaluate, evaluateString_world. cbv beta iota. world.
    rewrite run_cons. cbn [step pending nth_error].
    rewrite (dispatch_recorded _ HB).
    rewrite finishFunc_current by reflexivity.
    simpl. unfold isResolved. simpl. rewrite Z.eqb_refl. simpl.
    rewrite afterFlashDelay_world. simpl. reflexivity. }
  split; [destruct e; unfold shown; simpl; rewrite Nat.eqb_refl; reflexivity |].
  split.
  { simpl. unfold isResolved. simpl. rewrite Z.eqb_refl. simpl. reflexivity. }
  split; [destruct e; unfold shown; simpl; rewrite Nat.eqb_refl; reflexivity |].
  destruct e; reflexivity.
Qed.

Lemma X_clearing_is_not_guarded_witness :
  exists w8 w10,
    run [Evaluate (Some 0%nat) Examples.scd Examples.rangeA;
         Response 0 (Examples.succeeded "1"); TimerFires 1; Resumes 0;
         Evaluate (Some 0%nat) Examples.scd Examples.rangeB;
         Response 0 (Examples.succeeded "2"); TimerFires 1; Resumes 0]
        (initial Examples.defaults) = Some w8
    /\ run [TimerFires 2; Resumes 1] w8 = Some w10
    /\ shown w10 0%nat successDecorator = [].
Proof.
  destruct (@X_clearing_is_not_guarded (initial Examples.defaults) 0%nat Examples.scd
              Examples.rangeA Examples.rangeB
              (Examples.succeeded "1") (Examples.succeeded "2")
              (lit "1") (lit "2") false eq_refl eq_refl)
    as (w8 & w10 & R8 & _ & R10 & S10 & _).
  exists w8, w10. split; [exact R8 | split; [exact R10 | exact S10]].
Defined.

End LifecycleFacts.

(* ===================================================================== *)
(** ** When the generation is compared *)
(* ===================================================================== *)

Module ArrivalFacts.

Import Js Vscode Feedback Host Spec Spec2 FeedbackFacts LifecycleFacts.
Local Open Scope Z_scope.






End ArrivalFacts.

(* ===================================================================== *)
(** ** Properties of [ensure] and of the capability flag *)
(* ===================================================================== *)

Module CapabilityFacts.

Import Vscode JsObject.
Local Unset Implicit Arguments.

Lemma own_assign_same o k v : own (assign o k v) k = Some v.
Proof.
  induction o as [| [k0 x] o IH]; simpl.
  - rewrite String.eqb_refl. reflexivity.
  - destruct (String.eqb k0 k) eqn:E; simpl; rewrite E; auto.
Qed.

Lemma own_assign_other o k v k' : k <> k' -> own (assign o k v) k' = own o k'.
Proof.
  intros Hk. induction o as [| [k0 x] o IH]; simpl.
  - destruct (String.eqb k k') eqn:E; auto.
    apply String.eqb_eq in E. contradiction.
  - destruct (String.eqb k0 k) eqn:E; simpl.
    + apply String.eqb_eq in E. subst k0.
      destruct (String.eqb k k') eqn:E'; auto.
      apply String.eqb_eq in E'. contradiction.
    + destruct (String.eqb k0 k'); auto.
Qed.

Lemma assign_own_id o k v : own o k = Some v -> assign o k v = o.
Proof.
  induction o as [| [k0 x] o IH]; simpl; intros H.
  - discriminate.
  - destruct (String.eqb k0 k) eqn:E.
    + injection H as ->. reflexivity.
    + f_equal. apply IH; auto.
Qed.

Lemma length_replaceAt r o h : List.length (replaceAt r o h) = List.length h.
Proof.
  revert r. induction h as [| x h IH]; intros [| r]; simpl; auto.
Qed.

Lemma objectAt_replaceAt_same r o h :
  (r < List.length h)%nat -> objectAt (replaceAt r o h) r = o.
Proof.
  unfold objectAt. revert r. induction h as [| x h IH]; intros [| r] H;
    simpl in *; try lia; auto. apply IH. lia.
Qed.

Lemma objectAt_replaceAt_other r o h r' :
  r <> r' -> objectAt (replaceAt r o h) r' = objectAt h r'.
Proof.
  unfold objectAt. revert r r'.
  induction h as [| x h IH]; intros [| r] [| r'] H; simpl; auto; try lia.
Qed.

Lemma replaceAt_id r h : replaceAt r (objectAt h r) h = h.
Proof.
  unfold objectAt. revert r. induction h as [| x h IH]; intros [| r]; simpl; auto.
  f_equal. apply IH.
Qed.

Lemma objectAt_alloc_old h r :
  (r < List.length h)%nat -> objectAt (h ++ [[]]) r = objectAt h r.
Proof. intros H. unfold objectAt. apply app_nth1; exact H. Qed.

Lemma objectAt_alloc_new h : objectAt (h ++ [[]]) (List.length h) = [].
Proof.
  unfold objectAt. rewrite app_nth2 by lia. rewrite Nat.sub_diag. reflexivity.
Qed.

Lemma objectAt_outside h r : (List.length h <= r)%nat -> objectAt h r = [].
Proof. intros H. unfold objectAt. apply nth_overflow; exact H. Qed.

(** Reading after a write. *)
Lemma read_write h r k v r' k' :
  (r < List.length h)%nat ->
  read (replaceAt r (assign (objectAt h r) k v) h) r' k'
  = if Nat.eqb r r' && String.eqb k k' then v else read h r' k'.
Proof.
  intros Hr. unfold read.
  destruct (Nat.eqb r r') eqn:Er.
  - apply Nat.eqb_eq in Er. subst r'. rewrite objectAt_replaceAt_same by exact Hr.
    destruct (String.eqb k k') eqn:Ek; simpl.
    + apply String.eqb_eq in Ek. subst k'. rewrite own_assign_same. reflexivity.
    + rewrite own_assign_other; [reflexivity |]. apply String.eqb_neq; exact Ek.
  - apply Nat.eqb_neq in Er. rewrite objectAt_replaceAt_other by exact Er.
    reflexivity.
Qed.

Lemma read_alloc h r k : read (h ++ [[]]) r k = read h r k.
Proof.
  unfold read. destruct (Nat.lt_ge_cases r (List.length h)) as [L | G].
  - rewrite objectAt_alloc_old by exact L. reflexivity.
  - rewrite (objectAt_outside h) by exact G.
    destruct (Nat.eq_dec r (List.length h)) as [-> | N].
    + rewrite objectAt_alloc_new. reflexivity.
    + rewrite objectAt_outside; [reflexivity |]. rewrite length_app. simpl. lia.
Qed.

Lemma read_defined h r k :
  read h r k <> VUndefined -> own (objectAt h r) k = Some (read h r k).
Proof.
  unfold read. destruct (own (objectAt h r) k); [reflexivity | congruence].
Qed.

Section WithPrototypes.

Variable inherited : Value -> string -> Value.

(** For a plain key, [getProp] on an object is [read]. *)
Lemma getProp_read h r k :
  plainKey inherited k ->
  getProp inherited h (VObject r) k = Return (read h r k).
Proof.
  intros Hk. unfold getProp, read.
  destruct (own (objectAt h r) k); [reflexivity |]. rewrite Hk. reflexivity.
Qed.

(** The two cases of [ensure] on an object. *)
Lemma ensure_absent h r k :
  plainKey inherited k ->
  (r < List.length h)%nat -> read h r k = VUndefined ->
  ensure inherited (VObject r) k h
  = Return (VObject (List.length h),
            replaceAt r (assign (objectAt (h ++ [[]]) r) k (VObject (List.length h)))
                      (h ++ [[]])).
Proof.
  intros Hk Hr Hu. unfold ensure. rewrite (getProp_read h r k Hk), Hu.
  cbn [bind isUndefined newObject setProp].
  rewrite (getProp_read _ r k Hk). cbn [bind].
  rewrite read_write by (rewrite length_app; simpl; lia).
  rewrite Nat.eqb_refl, String.eqb_refl. reflexivity.
Qed.

Lemma ensure_present h r k :
  plainKey inherited k ->
  read h r k <> VUndefined ->
  ensure inherited (VObject r) k h = Return (read h r k, h).
Proof.
  intros Hk Hd. unfold ensure. rewrite (getProp_read h r k Hk). cbn [bind].
  destruct (read h r k) eqn:E; try contradiction; cbn [isUndefined bind];
    rewrite (getProp_read h r k Hk), E; reflexivity.
Qed.

(** [ensure] on an object whose property is an object or absent. *)
Lemma ensure_spec h r k :
  plainKey inherited k ->
  (r < List.length h)%nat -> closed h -> objectOrUndefined (read h r k) ->
  exists t h',
    ensure inherited (VObject r) k h = Return (VObject t, h')
    /\ (t < List.length h')%nat
    /\ (List.length h <= List.length h' <= S (List.length h))%nat
    /\ closed h'
    /\ read h' r k = VObject t
    /\ (read h r k <> VUndefined -> h' = h)
    /\ (read h r k = VUndefined ->
        t = List.length h /\ forall k', read h' t k' = VUndefined)
    /\ (forall r' k', read h r' k' <> VUndefined -> read h' r' k' = read h r' k').
Proof.
  intros Hk Hr Hc [Hu | (t & Ht)].
  - rewrite (ensure_absent h r k Hk Hr Hu).
    set (h1 := h ++ [[]]).
    assert (L1 : List.length h1 = S (List.length h))
      by (unfold h1; rewrite length_app; simpl; lia).
    assert (Hr1 : (r < List.length h1)%nat) by lia.
    set (h' := replaceAt r (assign (objectAt h1 r) k (VObject (List.length h))) h1).
    assert (Rd : forall r' k',
              read h' r' k'
              = if Nat.eqb r r' && String.eqb k k' then VObject (List.length h)
                else read h r' k').
    { intros r' k'. unfold h'. rewrite read_write by exact Hr1.
      unfold h1. rewrite read_alloc. reflexivity. }
    exists (List.length h), h'.
    assert (L' : List.length h' = S (List.length h))
      by (unfold h'; rewrite length_replaceAt; exact L1).
    split; [reflexivity |].
    split; [lia |]. split; [lia |].
    split; [| split; [| split; [| split]]].
    + intros r0 k0 r1 H0 Hv. rewrite Rd in Hv.
      destruct (Nat.eqb r r0 && String.eqb k k0).
      * injection Hv as <-. lia.
      * destruct (Nat.lt_ge_cases r0 (List.length h)) as [L | G].
        -- pose proof (Hc r0 k0 r1 L Hv). lia.
        -- unfold read in Hv. rewrite objectAt_outside in Hv by exact G.
           discriminate Hv.
    + rewrite Rd, Nat.eqb_refl, String.eqb_refl. reflexivity.
    + intros Hd. contradiction.
    + intros _. split; [reflexivity |]. intros k'. rewrite Rd.
      replace (Nat.eqb r (List.length h)) with false
        by (symmetry; apply Nat.eqb_neq; lia).
      unfold read. rewrite objectAt_outside by lia. reflexivity.
    + intros r' k' Hd. rewrite Rd.
      destruct (Nat.eqb r r') eqn:Er; [| reflexivity].
      destruct (String.eqb k k') eqn:Ek; [| reflexivity].
      apply Nat.eqb_eq in Er. apply String.eqb_eq in Ek. subst r' k'.
      contradiction.
  - assert (Hd : read h r k <> VUndefined) by (rewrite Ht; discriminate).
    rewrite (ensure_present h r k Hk Hd).
    exists t, h. split; [rewrite Ht; reflexivity |].
    split; [eapply Hc; eauto |]. split; [lia |].
    split; [exact Hc |]. split; [exact Ht |].
    split; [reflexivity |]. split; [intros Hu; contradiction | reflexivity].
Qed.

(** X14: [ensure] on an object, for a key that names no built-in property: the
    property is read back as the value that is returned, which is never
    [undefined]; a property that holds something is returned as it is and
    the heap is untouched; a property that holds nothing receives a fresh
    empty object; no other property of any object changes; and a second
    call returns the same value and changes nothing. *)
Theorem X_ensure_creates_once h r k :
  plainKey inherited k ->
  (r < List.length h)%nat ->
  exists v h',
    ensure inherited (VObject r) k h = Return (v, h')
    /\ read h' r k = v
    /\ v <> VUndefined
    /\ (read h r k <> VUndefined -> v = read h r k /\ h' = h)
    /\ (read h r k = VUndefined ->
        v = VObject (List.length h)
        /\ List.length h' = S (List.length h)
        /\ objectAt h' (List.length h) = [])
    /\ (forall r' k', r' <> r \/ k' <> k -> read h' r' k' = read h r' k')
    /\ ensure inherited (VObject r) k h' = Return (v, h').
Proof.
  intros Hk Hr.
  assert (Dec : read h r k = VUndefined \/ read h r k <> VUndefined)
    by (destruct (read h r k); auto; right; discriminate).
  destruct Dec as [Hu | Hd].
  - rewrite (ensure_absent h r k Hk Hr Hu).
    set (h1 := h ++ [[]]).
    assert (L1 : List.length h1 = S (List.length h))
      by (unfold h1; rewrite length_app; simpl; lia).
    assert (Hr1 : (r < List.length h1)%nat) by lia.
    set (h' := replaceAt r (assign (objectAt h1 r) k (VObject (List.length h))) h1).
    assert (Rd : forall r' k',
              read h' r' k'
              = if Nat.eqb r r' && String.eqb k k' then VObject (List.length h)
                else read h r' k').
    { intros r' k'. unfold h'. rewrite read_write by exact Hr1.
      unfold h1. rewrite read_alloc. reflexivity. }
    assert (Back : read h' r k = VObject (List.length h))
      by (rewrite Rd, Nat.eqb_refl, String.eqb_refl; reflexivity).
    exists (VObject (List.length h)), h'.
    split; [reflexivity |]. split; [exact Back |]. split; [discriminate |].
    split; [intros Hd; contradiction |].
    split; [| split].
    + intros _. split; [reflexivity |]. split.
      * unfold h'. rewrite length_replaceAt. exact L1.
      * unfold h'. rewrite objectAt_replaceAt_other by lia.
        unfold h1. apply objectAt_alloc_new.
    + intros r' k' Hne. rewrite Rd.
      destruct (Nat.eqb r r') eqn:Er; [| reflexivity].
      destruct (String.eqb k k') eqn:Ek; [| reflexivity].
      apply Nat.eqb_eq in Er. apply String.eqb_eq in Ek. subst r' k'.
      destruct Hne; contradiction.
    + rewrite <- Back. apply ensure_present; [exact Hk |].
      rewrite Back. discriminate.
  - rewrite (ensure_present h r k Hk Hd).
    exists (read h r k), h.
    split; [reflexivity |]. split; [reflexivity |]. split; [exact Hd |].
    split; [auto |]. split; [intros Hu; contradiction |].
    split; [reflexivity | apply ensure_present; assumption].
Qed.

(** X15: [ensure] throws on anything but an object, for a key that names no
    built-in property: on [undefined] and [null] at the first read, on
    another primitive value at the assignment. *)
Theorem X_ensure_needs_an_object target k h :
  plainKey inherited k ->
  (forall r, target <> VObject r) ->
  ensure inherited target k h = Throw TypeError.
Proof.
  intros Hk Hn. destruct target; try reflexivity;
    try (unfold ensure; cbn [getProp bind]; rewrite Hk; reflexivity).
  exfalso. eapply Hn. reflexivity.
Qed.

(** X16: [fillClientCapabilities] on a capabilities object whose
    [textDocument], and its [evaluation], are objects or absent (the three
    keys being no built-in property names): the flag
    [textDocument.evaluation.evaluateSelection] reads [true] afterwards,
    at most two objects are created, every property that held something
    holds the same thing (the flag itself excepted), and a second call
    changes nothing. *)
Theorem X_fillClientCapabilities_sets_flag h c :
  plainKey inherited "textDocument" ->
  plainKey inherited "evaluation" ->
  (c < List.length h)%nat ->
  closed h ->
  objectOrUndefined (read h c "textDocument") ->
  (forall td, read h c "textDocument" = VObject td ->
              objectOrUndefined (read h td "evaluation")) ->
  exists h' td ev,
    fillClientCapabilities inherited (VObject c) h = Return h'
    /\ read h' c "textDocument" = VObject td
    /\ read h' td "evaluation" = VObject ev
    /\ read h' ev "evaluateSelection" = VBoolean true
    /\ (List.length h <= List.length h' <= 2 + List.length h)%nat
    /\ (forall r k, read h r k <> VUndefined ->
                    r <> ev \/ k <> "evaluateSelection"%string ->
                    read h' r k = read h r k)
    /\ fillClientCapabilities inherited (VObject c) h' = Return h'.
Proof.
  intros Kt Ke Hc Hcl Htd Hev.
  destruct (ensure_spec h c _ Kt Hc Hcl Htd)
    as (td & h1 & E1 & Ltd & Len1 & Cl1 & R1 & Same1 & Fresh1 & Keep1).
  assert (Hev1 : objectOrUndefined (read h1 td "evaluation")).
  { destruct Htd as [Hu | (t0 & Ht0)].
    - left. destruct (Fresh1 Hu) as (_ & Empty). apply Empty.
    - assert (Hd : read h c "textDocument" <> VUndefined)
        by (rewrite Ht0; discriminate).
      rewrite (Same1 Hd) in *. apply Hev. exact R1. }
  destruct (ensure_spec h1 td _ Ke Ltd Cl1 Hev1)
    as (ev & h2 & E2 & Lev & Len2 & Cl2 & R2 & Same2 & Fresh2 & Keep2).
  set (h3 := replaceAt ev (assign (objectAt h2 ev) "evaluateSelection" (VBoolean true)) h2).
  assert (Rd3 : forall r k,
            read h3 r k
            = if Nat.eqb ev r && String.eqb "evaluateSelection" k then VBoolean true
              else read h2 r k).
  { intros r k. unfold h3. apply read_write. exact Lev. }
  assert (Run : fillClientCapabilities inherited (VObject c) h = Return h3).
  { unfold fillClientCapabilities. rewrite E1. cbn [bind fst snd].
    rewrite E2. cbn [bind fst snd setProp]. reflexivity. }
  assert (T3 : read h3 c "textDocument" = VObject td).
  { rewrite Rd3, andb_false_r. rewrite Keep2; [exact R1 | rewrite R1; discriminate]. }
  assert (V3 : read h3 td "evaluation" = VObject ev).
  { rewrite Rd3, andb_false_r. exact R2. }
  assert (F3 : read h3 ev "evaluateSelection" = VBoolean true).
  { rewrite Rd3, Nat.eqb_refl. reflexivity. }
  exists h3, td, ev.
  split; [exact Run |]. split; [exact T3 |]. split; [exact V3 |].
  split; [exact F3 |]. split; [| split].
  - unfold h3. rewrite length_replaceAt. lia.
  - intros r k Hd Hne. rewrite Rd3.
    replace (Nat.eqb ev r && String.eqb "evaluateSelection" k) with false.
    + rewrite Keep2 by (rewrite Keep1; exact Hd). apply Keep1; exact Hd.
    + symmetry. apply andb_false_iff. destruct Hne as [Hne | Hne].
      * left. apply Nat.eqb_neq. congruence.
      * right. apply String.eqb_neq. congruence.
  - unfold fillClientCapabilities.
    rewrite (ensure_present h3 c _ Kt) by (rewrite T3; discriminate).
    cbn [bind fst snd]. rewrite T3.
    rewrite (ensure_present h3 td _ Ke) by (rewrite V3; discriminate).
    cbn [bind fst snd]. rewrite V3. cbn [setProp].
    rewrite assign_own_id; [rewrite replaceAt_id; reflexivity |].
    rewrite <- F3. apply read_defined. rewrite F3. discriminate.
Qed.

(** X17: [fillClientCapabilities] throws when the capabilities are [undefined]
    or [null], and when [textDocument] holds anything but an object or
    nothing. *)
Theorem X_fillClientCapabilities_needs_objects h c v :
  plainKey inherited "textDocument" ->
  plainKey inherited "evaluation" ->
  read h c "textDocument" = v ->
  v <> VUndefined ->
  (forall r, v <> VObject r) ->
  fillClientCapabilities inherited (VObject c) h = Throw TypeError
  /\ fillClientCapabilities inherited VUndefined h = Throw TypeError
  /\ fillClientCapabilities inherited VNull h = Throw TypeError.
Proof.
  intros Kt Ke Hv Hd Hn. split; [| split; reflexivity].
  unfold fillClientCapabilities.
  rewrite (ensure_present h c _ Kt) by (rewrite Hv; exact Hd).
  cbn [bind fst snd]. rewrite Hv.
  destruct v; try reflexivity;
    try (unfold ensure; cbn [getProp bind]; rewrite Ke; reflexivity).
  exfalso. eapply Hn. reflexivity.
Qed.

End WithPrototypes.

Lemma plain_textDocument : plainKey noPrototype "textDocument".
Proof. intros v. reflexivity. Qed.

Lemma plain_evaluation : plainKey noPrototype "evaluation".
Proof. intros v. reflexivity. Qed.

Lemma X_ensure_creates_once_witness :
  exists h',
    ensure noPrototype (VObject 0) "textDocument"
      [[("workspace", VBoolean true)]]%string
    = Return (VObject 1, h')
    /\ read h' 0 "workspace" = VBoolean true.
Proof.
  destruct (X_ensure_creates_once noPrototype
              [[("workspace", VBoolean true)]]%string
              0%nat "textDocument"%string plain_textDocument ltac:(simpl; lia))
    as (v & h' & E & _ & _ & _ & New & Frame & _).
  destruct (New eq_refl) as (-> & _ & _).
  exists h'. split; [exact E |].
  rewrite Frame by (right; discriminate). reflexivity.
Defined.

Lemma X_ensure_needs_an_object_witness :
  ensure noPrototype (VBoolean true) "evaluation" [] = Throw TypeError.
Proof.
  apply X_ensure_needs_an_object; [exact plain_evaluation |].
  intros r. discriminate.
Defined.

Lemma X_fillClientCapabilities_sets_flag_witness :
  exists h',
    fillClientCapabilities noPrototype (VObject 0)
      [[("textDocument", VObject 1)]; [("hover", VBoolean true)]]%string
    = Return h'
    /\ read h' 1 "hover" = VBoolean true.
Proof.
  destruct (X_fillClientCapabilities_sets_flag noPrototype
              [[("textDocument", VObject 1)]; [("hover", VBoolean true)]]%string
              0%nat plain_textDocument plain_evaluation)
    as (h' & td & ev & E & T & V & _ & _ & Keep & _).
  - simpl. lia.
  - intros r k r'. unfold read, objectAt.
    destruct r as [| [| r]]; cbn [nth own List.length]; intros Hr Hv.
    + destruct (String.eqb "textDocument" k); [injection Hv as <-; lia | discriminate].
    + destruct (String.eqb "hover" k); discriminate.
    + lia.
  - right. exists 1%nat. reflexivity.
  - intros td Htd. injection Htd as <-. left. reflexivity.
  - exists h'. split; [exact E |].
    rewrite Keep; [reflexivity | discriminate |].
    right. discriminate.
Defined.

Lemma X_fillClientCapabilities_needs_objects_witness :
  fillClientCapabilities noPrototype (VObject 0)
    [[("textDocument", VBoolean true)]]%string
  = Throw TypeError.
Proof.
  refine (proj1 (X_fillClientCapabilities_needs_objects noPrototype
                   [[("textDocument", VBoolean true)]]%string 0%nat (VBoolean true)
                   plain_textDocument plain_evaluation eq_refl _ _)).
  - discriminate.
  - intros r. discriminate.
Defined.

End CapabilityFacts.
